(** * Signal scan and return series of the rule-based strategies

    A shallow embedding of [src/strategies.py]: the [TradeSignal] record, the
    [BaseStrategy] instance state ([data], [signals]), the four
    [generate_signals] scans and [BaseStrategy.calculate_returns].

    Conventions of the embedding.
    - A Python [float] is an IEEE-754 binary64 number: Rocq's primitive
      [float], whose comparisons answer [false] on NaN as Python's do.
    - A pandas [Timestamp] is the integer number of nanoseconds it stores;
      [(a - b).days] is the floor of the difference divided by one day.
    - The [DataFrame] held by a strategy is a list of rows.  A row carries
      its index label ([date]), the [close] price and the indicator columns
      that the constructors attach and the scans read.  The values of the
      indicator columns are inputs: they are computed in [__init__] by
      libraries that are not part of the repository.
    - A Python exception is a [Raise] result; every method threads the
      instance ([self]) explicitly. *)

From Stdlib Require Import ZArith String List Floats Bool Lia Sorted.
Import ListNotations.

Set Warnings "-inexact-float".

Local Open Scope Z_scope.

(** ** Exceptions and the error monad *)

Inductive exn : Type :=
| IndexError
| TypeError.

Inductive result (A : Type) : Type :=
| Ok (a : A)
| Raise (e : exn).

Arguments Ok {A} a.
Arguments Raise {A} e.

Definition bind {A B : Type} (m : result A) (k : A -> result B) : result B :=
  match m with
  | Ok a => k a
  | Raise e => Raise e
  end.

Notation "x <- m ;; k" := (bind m (fun x => k))
  (at level 61, m at next level, right associativity).

(** [xs[i]] and [series.iloc[i]] for a non-negative position [i].  Every
    position the methods below compute is non-negative: the loops start at
    bar 20 or later, so that [i - 1] is at least 19. *)
Definition iloc {A : Type} (xs : list A) (i : nat) : result A :=
  match nth_error xs i with
  | Some x => Ok x
  | None => Raise IndexError
  end.

(** Python's [range(lo, hi)]. *)
Definition range (lo hi : nat) : list nat := seq lo (hi - lo).

(** Python's [any] and [all] on a list of truth values. *)
Definition any (bs : list bool) : bool := existsb (fun b => b) bs.
Definition all (bs : list bool) : bool := forallb (fun b => b) bs.

(** [for i in idxs: body], an exception aborting the loop. *)
Fixpoint for_each {St : Type} (body : nat -> St -> result St)
         (idxs : list nat) (st : St) : result St :=
  match idxs with
  | [] => Ok st
  | i :: rest => st' <- body i st ;; for_each body rest st'
  end.

(** ** Floats and timestamps *)

Definition gtb (x y : float) : bool := PrimFloat.ltb y x.
Definition geb (x y : float) : bool := PrimFloat.leb y x.

Notation "x <? y" := (PrimFloat.ltb x y) : float_scope.
Notation "x <=? y" := (PrimFloat.leb x y) : float_scope.
Notation "x >? y" := (gtb x y) (at level 70) : float_scope.
Notation "x >=? y" := (geb x y) (at level 70) : float_scope.

Definition ns_per_day : Z := 86400000000000.

(** [(a - b).days] *)
Definition days (a b : Z) : Z := (a - b) / ns_per_day.

(** ** Data model *)

Record TradeSignal : Type := mkSignal {
  timestamp : Z;
  type : string;
  price : float;
  stop_loss : float;
  take_profit : float;
  reason : string
}.

Record Row : Type := mkRow {
  date : Z;
  close : float;
  SMA_20 : float;
  SMA_50 : float;
  SMA_200 : float;
  RSI : float;
  ATR : float;
  ATR_MA : float;
  MACD : float;
  MACD_Signal : float;
  MACD_Hist : float;
  Higher_High : bool;
  Lower_Low : bool;
  Volume_Ratio : float;
  ROC_5 : float;
  ROC_20 : float;
  High_20 : float;
  High_30 : float
}.

Definition DataFrame : Type := list Row.

Inductive StrategyClass : Type :=
| ACCStrategy
| AdaniEnterprisesStrategy
| AdaniPowerStrategy
| AdaniPortsStrategy.

(** A strategy instance: its class and the two attributes of
    [BaseStrategy]. *)
Record Strategy : Type := mkStrategy {
  class : StrategyClass;
  data : DataFrame;
  signals : list TradeSignal
}.

Definition set_signals (self : Strategy) (sigs : list TradeSignal) : Strategy :=
  {| class := class self; data := data self; signals := sigs |}.

(** A pandas [Series] of floats. *)
Record Series : Type := mkSeries {
  index : list Z;
  values : list float
}.

(** ** The scan of [generate_signals] *)

Module Scan.

(** The local variables of a [generate_signals] loop. *)
Record locals : Type := mk {
  signals : list TradeSignal;
  position_open : bool;
  entry_price : float;
  entry_date : option Z
}.

Definition init : locals :=
  {| signals := []; position_open := false; entry_price := 0%float;
     entry_date := None |}.

(** [position_open = False; entry_price = 0; entry_date = None] *)
Definition close_position (st : locals) : locals :=
  {| signals := signals st; position_open := false; entry_price := 0%float;
     entry_date := None |}.

(** [signals.append(sig); position_open = True; entry_price = current_price;
    entry_date = current_date] *)
Definition open_position (st : locals) (sig : TradeSignal)
           (current_price : float) (current_date : Z) : locals :=
  {| signals := signals st ++ [sig]; position_open := true;
     entry_price := current_price; entry_date := Some current_date |}.

(** [current_date - entry_date]: a [TypeError] when [entry_date] is [None]. *)
Definition held_days (current_date : Z) (st : locals) : result Z :=
  match entry_date st with
  | Some d => Ok (days current_date d)
  | None => Raise TypeError
  end.

End Scan.

Import Scan(locals, position_open, entry_price, entry_date, close_position,
            open_position, held_days).

Local Open Scope float_scope.

(** *** ACCStrategy *)

Definition ACC_exit_conditions (r : Row) (st : locals) : result (list bool) :=
  let current_price := close r in
  let current_date := date r in
  let volatility_exit := ATR r >? ATR_MA r * 1.3 in
  let trend_exit := current_price <? SMA_20 r in
  let momentum_exit := (MACD r <? MACD_Signal r) && (MACD_Hist r <? 0) in
  let rsi_exit := RSI r >? 70 in
  held <- held_days current_date st ;;
  Ok [ volatility_exit;
       trend_exit;
       momentum_exit;
       rsi_exit;
       current_price <=? entry_price st * 0.98;
       current_price >=? entry_price st * 1.04;
       (held >=? 8)%Z ].

Definition ACC_volatility_ok (r : Row) : bool :=
  (ATR r <? ATR_MA r * 1.1) && (ATR r >? ATR_MA r * 0.7).

Definition ACC_trend_ok (r : Row) : bool :=
  (close r >? SMA_20 r) && (SMA_20 r >? SMA_50 r) && (SMA_50 r >? SMA_200 r).

Definition ACC_momentum_ok (r : Row) : bool :=
  (RSI r >? 45) && (RSI r <? 65) && (MACD r >? MACD_Signal r)
  && (MACD_Hist r >? 0) && (ROC_5 r >? 0) && (ROC_20 r >? 0).

Definition ACC_volume_ok (r : Row) : bool := Volume_Ratio r >? 1.3.

Definition ACC_pattern_ok (r : Row) : bool :=
  Higher_High r && negb (Lower_Low r) && (close r >? SMA_20 r * 1.01).

Definition ACC_entry_conditions (r : Row) : list bool :=
  [ ACC_volatility_ok r; ACC_trend_ok r; ACC_momentum_ok r; ACC_volume_ok r;
    ACC_pattern_ok r ].

Definition ACC_signal (r : Row) : TradeSignal :=
  let current_price := close r in
  let atr := ATR r in
  {| timestamp := date r;
     type := "LONG";
     price := current_price;
     stop_loss := current_price - atr * 1.2;
     take_profit := current_price + atr * 2.0;
     reason := "Strong trend with momentum and volume confirmation" |}.

(** The block under [if not position_open:]. *)
Definition ACC_entry (r : Row) (st : locals) : locals :=
  if negb (position_open st) then
    if all (ACC_entry_conditions r) then
      open_position st (ACC_signal r) (close r) (date r)
    else st
  else st.

(** One iteration of the loop of [ACCStrategy.generate_signals]. *)
Definition ACC_body (df : DataFrame) (i : nat) (st : locals) : result locals :=
  r <- iloc df i ;;
  if position_open st then
    exit_conditions <- ACC_exit_conditions r st ;;
    if any exit_conditions then Ok (close_position st) (* continue *)
    else Ok (ACC_entry r st)
  else Ok (ACC_entry r st).

(** *** AdaniEnterprisesStrategy *)

Definition AdaniEnterprises_exit_conditions (r : Row) (st : locals)
  : result (list bool) :=
  held <- held_days (date r) st ;;
  Ok [ (held >=? 10)%Z; close r <=? entry_price st * 0.97 ].

Definition AdaniEnterprises_signal (r : Row) : TradeSignal :=
  let current_price := close r in
  {| timestamp := date r;
     type := "LONG";
     price := current_price;
     stop_loss := current_price * 0.97;
     take_profit := current_price * 1.12;
     reason := "20-day high breakout" |}.

Definition AdaniEnterprises_entry (df : DataFrame) (i : nat) (r : Row)
           (st : locals) : result locals :=
  if negb (position_open st) then
    prev <- iloc df (i - 1) ;;
    if close r >? High_20 prev then
      Ok (open_position st (AdaniEnterprises_signal r) (close r) (date r))
    else Ok st
  else Ok st.

Definition AdaniEnterprises_body (df : DataFrame) (i : nat) (st : locals)
  : result locals :=
  r <- iloc df i ;;
  if position_open st then
    exit_conditions <- AdaniEnterprises_exit_conditions r st ;;
    if any exit_conditions then Ok (close_position st) (* continue *)
    else AdaniEnterprises_entry df i r st
  else AdaniEnterprises_entry df i r st.

(** *** AdaniPowerStrategy *)

Definition golden_cross (prev r : Row) : bool :=
  (SMA_50 prev <=? SMA_200 prev) && (SMA_50 r >? SMA_200 r).

Definition death_cross (prev r : Row) : bool :=
  (SMA_50 prev >=? SMA_200 prev) && (SMA_50 r <? SMA_200 r).

Definition AdaniPower_signal (r : Row) : TradeSignal :=
  let current_price := close r in
  {| timestamp := date r;
     type := "LONG";
     price := current_price;
     stop_loss := current_price * 0.94;
     take_profit := current_price * 1.12;
     reason := "50/200 SMA golden cross" |}.

Definition AdaniPower_body (df : DataFrame) (i : nat) (st : locals)
  : result locals :=
  r <- iloc df i ;;
  prev <- iloc df (i - 1) ;;
  if position_open st && death_cross prev r then
    Ok (close_position st) (* continue *)
  else if negb (position_open st) && golden_cross prev r then
    Ok (open_position st (AdaniPower_signal r) (close r) (date r))
  else Ok st.

(** *** AdaniPortsStrategy *)

Definition AdaniPorts_exit_conditions (r : Row) (st : locals)
  : result (list bool) :=
  held <- held_days (date r) st ;;
  Ok [ (held >=? 10)%Z; close r <=? entry_price st * 0.95 ].

Definition AdaniPorts_signal (r : Row) : TradeSignal :=
  let current_price := close r in
  {| timestamp := date r;
     type := "LONG";
     price := current_price;
     stop_loss := current_price * 0.95;
     take_profit := current_price * 1.12;
     reason := "30-day high breakout" |}.

Definition AdaniPorts_entry (df : DataFrame) (i : nat) (r : Row)
           (st : locals) : result locals :=
  if negb (position_open st) then
    prev <- iloc df (i - 1) ;;
    if close r >? High_30 prev then
      Ok (open_position st (AdaniPorts_signal r) (close r) (date r))
    else Ok st
  else Ok st.

Definition AdaniPorts_body (df : DataFrame) (i : nat) (st : locals)
  : result locals :=
  r <- iloc df i ;;
  if position_open st then
    exit_conditions <- AdaniPorts_exit_conditions r st ;;
    if any exit_conditions then Ok (close_position st) (* continue *)
    else AdaniPorts_entry df i r st
  else AdaniPorts_entry df i r st.

Local Close Scope float_scope.

(** *** The four [generate_signals] methods *)

(** [self.signals = signals; return signals] *)
Definition finish (self : Strategy) (st : locals)
  : list TradeSignal * Strategy :=
  (Scan.signals st, set_signals self (Scan.signals st)).

Definition ACC_generate_signals (self : Strategy)
  : result (list TradeSignal * Strategy) :=
  st <- for_each (ACC_body (data self))
                 (range 200 (length (data self))) Scan.init ;;
  Ok (finish self st).

Definition AdaniEnterprises_generate_signals (self : Strategy)
  : result (list TradeSignal * Strategy) :=
  st <- for_each (AdaniEnterprises_body (data self))
                 (range 20 (length (data self))) Scan.init ;;
  Ok (finish self st).

Definition AdaniPower_generate_signals (self : Strategy)
  : result (list TradeSignal * Strategy) :=
  st <- for_each (AdaniPower_body (data self))
                 (range 200 (length (data self))) Scan.init ;;
  Ok (finish self st).

Definition AdaniPorts_generate_signals (self : Strategy)
  : result (list TradeSignal * Strategy) :=
  st <- for_each (AdaniPorts_body (data self))
                 (range 30 (length (data self))) Scan.init ;;
  Ok (finish self st).

(** The abstract method, dispatched on the class of the instance. *)
Definition generate_signals (self : Strategy)
  : result (list TradeSignal * Strategy) :=
  match class self with
  | ACCStrategy => ACC_generate_signals self
  | AdaniEnterprisesStrategy => AdaniEnterprises_generate_signals self
  | AdaniPowerStrategy => AdaniPower_generate_signals self
  | AdaniPortsStrategy => AdaniPorts_generate_signals self
  end.

(** ** [BaseStrategy.calculate_returns] *)

Module Ret.

(** The local variables of [calculate_returns]. *)
Record locals : Type := mk {
  returns : Series;
  position : Z;
  entry_price : float;
  entry_index : option Z
}.

End Ret.

(** [for i, x in enumerate(xs): body], counting from [i]. *)
Fixpoint for_enumerate {St A : Type} (body : nat -> A -> St -> result St)
         (i : nat) (xs : list A) (st : St) : result St :=
  match xs with
  | [] => Ok st
  | x :: rest => st' <- body i x st ;; for_enumerate body (S i) rest st'
  end.

(** [self.data.index > entry_index]: a [TypeError] when [entry_index] is
    [None]. *)
Definition index_gt (df : DataFrame) (entry_index : option Z)
  : result (list bool) :=
  match entry_index with
  | Some t => Ok (map (fun r => t <? date r) df)
  | None => Raise TypeError
  end.

(** [self.data.index <= t] *)
Definition index_le (df : DataFrame) (t : Z) : list bool :=
  map (fun r => date r <=? t) df.

(** The element-wise [&] of two boolean arrays. *)
Fixpoint mask_and (a b : list bool) : list bool :=
  match a, b with
  | x :: a', y :: b' => (x && y) :: mask_and a' b'
  | _, _ => []
  end.

(** [self.data.loc[mask, 'close']] *)
Fixpoint loc_close (df : DataFrame) (mask : list bool) : list float :=
  match df, mask with
  | r :: df', b :: mask' =>
      if b then close r :: loc_close df' mask' else loc_close df' mask'
  | _, _ => []
  end.

(** [returns[mask] = vals]: the selected positions take the values of
    [vals] in order (the labels of [vals] are those selected by [mask]). *)
Fixpoint setitem (vs : list float) (mask : list bool) (vals : list float)
  : list float :=
  match vs, mask with
  | v :: vs', b :: mask' =>
      if b then
        match vals with
        | x :: vals' => x :: setitem vs' mask' vals'
        | [] => v :: setitem vs' mask' []
        end
      else v :: setitem vs' mask' vals
  | _, _ => vs
  end.

(** One iteration of the loop of [calculate_returns]. *)
Definition returns_body (self : Strategy) (i : nat) (signal : TradeSignal)
           (st : Ret.locals) : result Ret.locals :=
  let st :=
    if String.eqb (type signal) "LONG" then
      {| Ret.returns := Ret.returns st; Ret.position := 1;
         Ret.entry_price := price signal;
         Ret.entry_index := Some (timestamp signal) |}
    else st in
  if Ret.position st =? 1 then
    let n := length (signals self) in
    let next_signal_idx := if (i + 1 <? n)%nat then (i + 1)%nat else n in
    mask <- (if (next_signal_idx <? n)%nat then
               next_signal <- iloc (signals self) next_signal_idx ;;
               after <- index_gt (data self) (Ret.entry_index st) ;;
               Ok (mask_and after
                            (index_le (data self) (timestamp next_signal)))
             else index_gt (data self) (Ret.entry_index st)) ;;
    if any mask then
      let entry_price := Ret.entry_price st in
      let position_returns :=
        map (fun c => ((c - entry_price) / entry_price)%float)
            (loc_close (data self) mask) in
      Ok {| Ret.returns :=
              {| index := index (Ret.returns st);
                 values := setitem (values (Ret.returns st)) mask
                                   position_returns |};
            Ret.position := 0;
            Ret.entry_price := Ret.entry_price st;
            Ret.entry_index := Ret.entry_index st |}
    else Ok st
  else Ok st.

(** [pd.Series(0.0, index=self.data.index)] *)
Definition zeros (df : DataFrame) : Series :=
  {| index := map date df; values := repeat 0%float (length df) |}.

Definition calculate_returns (self : Strategy) : result (Series * Strategy) :=
  let st0 := {| Ret.returns := zeros (data self); Ret.position := 0;
                Ret.entry_price := 0%float; Ret.entry_index := None |} in
  st <- for_enumerate (returns_body self) 0 (signals self) st0 ;;
  Ok (Ret.returns st, self).

(** ** The scan as a transition system *)

Definition warmup (c : StrategyClass) : nat :=
  match c with
  | ACCStrategy => 200
  | AdaniEnterprisesStrategy => 20
  | AdaniPowerStrategy => 200
  | AdaniPortsStrategy => 30
  end.

Definition body (c : StrategyClass)
  : DataFrame -> nat -> locals -> result locals :=
  match c with
  | ACCStrategy => ACC_body
  | AdaniEnterprisesStrategy => AdaniEnterprises_body
  | AdaniPowerStrategy => AdaniPower_body
  | AdaniPortsStrategy => AdaniPorts_body
  end.

Definition signal_of (c : StrategyClass) : Row -> TradeSignal :=
  match c with
  | ACCStrategy => ACC_signal
  | AdaniEnterprisesStrategy => AdaniEnterprises_signal
  | AdaniPowerStrategy => AdaniPower_signal
  | AdaniPortsStrategy => AdaniPorts_signal
  end.

(** The loop of [generate_signals], before [self.signals] is assigned. *)
Definition scan (self : Strategy) : result locals :=
  for_each (body (class self) (data self))
           (range (warmup (class self)) (length (data self))) Scan.init.

(** The guard of the exit branch of each class, as the loop evaluates it at
    bar [i] in state [st]. *)
Definition exit_guard (c : StrategyClass) (df : DataFrame) (i : nat)
           (st : locals) : result bool :=
  match c with
  | ACCStrategy =>
      r <- iloc df i ;; ec <- ACC_exit_conditions r st ;; Ok (any ec)
  | AdaniEnterprisesStrategy =>
      r <- iloc df i ;; ec <- AdaniEnterprises_exit_conditions r st ;;
      Ok (any ec)
  | AdaniPowerStrategy =>
      r <- iloc df i ;; prev <- iloc df (i - 1) ;; Ok (death_cross prev r)
  | AdaniPortsStrategy =>
      r <- iloc df i ;; ec <- AdaniPorts_exit_conditions r st ;; Ok (any ec)
  end.

(** The exit transition LONG_OPEN -> FLAT fires at bar [i]. *)
Definition exit_fires (c : StrategyClass) (df : DataFrame) (i : nat)
           (st : locals) : bool :=
  position_open st &&
  match exit_guard c df i st with
  | Ok b => b
  | Raise _ => false
  end.

(** A signal was appended between [st] and [st']. *)
Definition emitted (st st' : locals) : bool :=
  (length (Scan.signals st) <? length (Scan.signals st'))%nat.

Inductive transition : Type :=
| Exit (i : nat)
| Entry (i : nat).

(** What an observer of bar [i] records: the exit branch taken, a signal
    appended. *)
Definition observe (c : StrategyClass) (df : DataFrame) (i : nat)
           (st st' : locals) : list transition :=
  (if exit_fires c df i st then [Exit i] else [])
  ++ (if emitted st st' then [Entry i] else []).

Fixpoint transitions (c : StrategyClass) (df : DataFrame) (idxs : list nat)
         (st : locals) : list transition :=
  match idxs with
  | [] => []
  | i :: rest =>
      match body c df i st with
      | Ok st' => observe c df i st st' ++ transitions c df rest st'
      | Raise _ => []
      end
  end.

Definition scan_transitions (self : Strategy) : list transition :=
  transitions (class self) (data self)
              (range (warmup (class self)) (length (data self))) Scan.init.

(** One bar of the scan, as a step relation on the loop state. *)
Inductive step (c : StrategyClass) (df : DataFrame) (i : nat)
  : locals -> locals -> Prop :=
| step_exit st :
    position_open st = true -> exit_fires c df i st = true ->
    step c df i st (close_position st)
| step_hold st :
    position_open st = true -> exit_fires c df i st = false ->
    step c df i st st
| step_entry st r :
    position_open st = false -> nth_error df i = Some r ->
    step c df i st (open_position st (signal_of c r) (close r) (date r))
| step_idle st :
    position_open st = false ->
    step c df i st st.

(** The loop state is well formed: an open position has an entry date. *)
Definition well_formed (st : locals) : Prop :=
  position_open st = true -> entry_date st <> None.


(** The scan up to bar [i], excluded: the state in which the loop reaches
    bar [i]. *)
Definition scan_before (self : Strategy) (i : nat) : result locals :=
  for_each (body (class self) (data self)) (range (warmup (class self)) i)
           Scan.init.

(** ** Readings of a transition sequence *)

(** The bars at which a signal was emitted. *)
Fixpoint entries (tr : list transition) : list nat :=
  match tr with
  | [] => []
  | Entry i :: tr' => i :: entries tr'
  | Exit _ :: tr' => entries tr'
  end.

(** The position state strictly alternates: an entry only when FLAT, an
    exit only when LONG_OPEN. *)
Fixpoint alternating (opened : bool) (tr : list transition) : bool :=
  match tr with
  | [] => true
  | Entry _ :: tr' => negb opened && alternating true tr'
  | Exit _ :: tr' => opened && alternating false tr'
  end.

(** Consecutive elements are at least two apart. *)
Fixpoint spaced (l : list nat) : Prop :=
  match l with
  | i :: (j :: _) as rest => (i + 2 <= j)%nat /\ spaced rest
  | _ => True
  end.

(** The transitions with their bars: each transition lies at or after bar
    [lo], in the state it is allowed in, and later ones lie strictly after
    it. *)
Fixpoint timeline (opened : bool) (lo : nat) (tr : list transition) : Prop :=
  match tr with
  | [] => True
  | Entry j :: tr' => opened = false /\ (lo <= j)%nat /\ timeline true (S j) tr'
  | Exit k :: tr' => opened = true /\ (lo <= k)%nat /\ timeline false (S k) tr'
  end.

(** Signal [s] is the one the class emits at bar [i] of [df]. *)
Definition signal_at (c : StrategyClass) (df : DataFrame) (s : TradeSignal)
           (i : nat) : Prop :=
  exists r, nth_error df i = Some r /\ s = signal_of c r.

(** The bar count below which a series is too short for the class. *)
Definition warmup_window (c : StrategyClass) : nat :=
  match c with
  | ACCStrategy => 201
  | AdaniEnterprisesStrategy => 21
  | AdaniPowerStrategy => 201
  | AdaniPortsStrategy => 31
  end.

(** ** Readings of a return series *)

(** Bar time [t] lies in the range of signal [s]: strictly after its
    timestamp and, when a next signal exists, up to and including the next
    signal's timestamp. *)
Definition covers (s : TradeSignal) (next : option TradeSignal) (t : Z)
  : bool :=
  (timestamp s <? t)
  && match next with
     | Some s' => t <=? timestamp s'
     | None => true
     end.

(** The simple return of bar [r] against the entry price of signal [s]. *)
Definition simple_return (s : TradeSignal) (r : Row) : float :=
  ((close r - price s) / price s)%float.

(** The rows selected by [p] take the value [f]; the others keep theirs. *)
Fixpoint overwrite (df : DataFrame) (p : Row -> bool) (f : Row -> float)
         (vs : list float) : list float :=
  match df, vs with
  | r :: df', v :: vs' => (if p r then f r else v) :: overwrite df' p f vs'
  | _, _ => vs
  end.

(** The signals write their ranges one after the other. *)
Fixpoint apply_signals (df : DataFrame) (sigs : list TradeSignal)
         (vs : list float) : list float :=
  match sigs with
  | [] => vs
  | s :: rest =>
      apply_signals df rest
        (overwrite df (fun r => covers s (hd_error rest) (date r))
                   (simple_return s) vs)
  end.

(** The last signal of the list whose range covers [t]. *)
Fixpoint writer (sigs : list TradeSignal) (t : Z) : option TradeSignal :=
  match sigs with
  | [] => None
  | s :: rest =>
      match writer rest t with
      | Some w => Some w
      | None => if covers s (hd_error rest) t then Some s else None
      end
  end.

(** The timestamps are strictly ascending (ordered and unique). *)
Fixpoint ascending (ts : list Z) : bool :=
  match ts with
  | t :: (t' :: _) as rest => (t <? t') && ascending rest
  | _ => true
  end.

(** The loop state of [calculate_returns] is well formed: a position that
    is on has an entry index. *)
Definition returns_well_formed (st : Ret.locals) : Prop :=
  Ret.position st = 1 -> Ret.entry_index st <> None.

(** Signal [a] is stamped strictly before signal [b]. *)
Definition earlier (a b : TradeSignal) : Prop := timestamp a < timestamp b.

(** ** Signals up to their stop and target *)

(** Two signals agree on everything but [stop_loss] and [take_profit]. *)
Definition same_but_stops (a b : TradeSignal) : Prop :=
  timestamp a = timestamp b /\ type a = type b /\ price a = price b
  /\ reason a = reason b.

(** Two loop states agree up to the stop and target recorded on the
    signals emitted so far. *)
Definition stops_replaced (st st' : locals) : Prop :=
  position_open st = position_open st'
  /\ entry_price st = entry_price st'
  /\ entry_date st = entry_date st'
  /\ Forall2 same_but_stops (Scan.signals st) (Scan.signals st').

(** Two runs end alike: the same exception, or results related by [R]. *)
Definition result_rel {A : Type} (R : A -> A -> Prop) (x y : result A)
  : Prop :=
  match x, y with
  | Ok a, Ok b => R a b
  | Raise e, Raise e' => e = e'
  | _, _ => False
  end.

(** ** Sample frames *)

(** Bars a quarter of an hour apart. *)
Definition bar_time (n : nat) : Z := Z.of_nat n * 900000000000.

(** A frame of 25 bars for the 20-day breakout: the close breaks the
    rolling high at bar 20, falls below the stop at bar 22 and breaks out
    again at bar 23. *)
Definition breakout_close (n : nat) : float :=
  match n with
  | 20%nat => 11
  | 21%nat => 12
  | 22%nat => 10
  | 23%nat => 11
  | 24%nat => 12
  | _ => 9
  end%float.

Definition breakout_row (n : nat) : Row :=
  {| date := bar_time n; close := breakout_close n;
     SMA_20 := 0; SMA_50 := 0; SMA_200 := 0; RSI := 0; ATR := 0;
     ATR_MA := 0; MACD := 0; MACD_Signal := 0; MACD_Hist := 0;
     Higher_High := false; Lower_Low := false; Volume_Ratio := 0;
     ROC_5 := 0; ROC_20 := 0; High_20 := 10; High_30 := 10 |}%float.

Definition breakout_frame : DataFrame := map breakout_row (seq 0 25).

Definition breakout_strategy : Strategy :=
  {| class := AdaniEnterprisesStrategy; data := breakout_frame;
     signals := [] |}.

(** Frames for the 50/200 cross, with both averages given per bar. *)
Definition cross_row (sma50 sma200 : nat -> float) (n : nat) : Row :=
  {| date := bar_time n; close := 100;
     SMA_20 := 0; SMA_50 := sma50 n; SMA_200 := sma200 n; RSI := 0; ATR := 0;
     ATR_MA := 0; MACD := 0; MACD_Signal := 0; MACD_Hist := 0;
     Higher_High := false; Lower_Low := false; Volume_Ratio := 0;
     ROC_5 := 0; ROC_20 := 0; High_20 := 0; High_30 := 0 |}%float.

Definition cross_strategy (bars : nat) (sma50 sma200 : nat -> float)
  : Strategy :=
  {| class := AdaniPowerStrategy;
     data := map (cross_row sma50 sma200) (seq 0 bars);
     signals := [] |}.




(** The averages around a bar without a close: SMA_50 crosses above at bar
    200; the close of bar 201 is missing, which leaves SMA_50 undefined on
    bars 201 to 250 and SMA_200 undefined on bars 201 to 400; SMA_50 is
    below SMA_200 at bar 401. *)
Definition sma50_gap (n : nat) : float :=
  if (n <? 49)%nat then nan
  else if (n =? 200)%nat then 3%float
  else if (201 <=? n)%nat && (n <=? 250)%nat then nan
  else 1%float.

Definition sma200_gap (n : nat) : float :=
  if (n <? 199)%nat then nan
  else if (201 <=? n)%nat && (n <=? 400)%nat then nan
  else 2%float.

Definition gap_sample : Strategy := cross_strategy 402 sma50_gap sma200_gap.

(** Frames of 201 bars for [ACCStrategy]: every entry predicate other than
    the volatility check holds at each bar, ATR_MA is 1 and ATR is given. *)
Definition acc_row (atr : float) (n : nat) : Row :=
  {| date := bar_time n; close := 110;
     SMA_20 := 105; SMA_50 := 100; SMA_200 := 90; RSI := 55; ATR := atr;
     ATR_MA := 1; MACD := 2; MACD_Signal := 1; MACD_Hist := 1;
     Higher_High := true; Lower_Low := false; Volume_Ratio := 1.5;
     ROC_5 := 1; ROC_20 := 1; High_20 := 0; High_30 := 0 |}%float.

Definition acc_strategy (atr : float) : Strategy :=
  {| class := ACCStrategy; data := map (acc_row atr) (seq 0 201);
     signals := [] |}.

(** Five bars only: too short for every class. *)
Definition short_strategy : Strategy :=
  {| class := AdaniEnterprisesStrategy; data := map breakout_row (seq 0 5);
     signals := [] |}.

(** The loop state of the breakout frame after the entry of bar 20, as
    the scan leaves it and with the stop and target of the signal
    replaced. *)
Definition breakout_state (sl tp : float) : locals :=
  {| Scan.signals :=
       [ {| timestamp := bar_time 20; type := "LONG"; price := 11%float;
            stop_loss := sl; take_profit := tp;
            reason := "20-day high breakout" |} ];
     Scan.position_open := true;
     Scan.entry_price := 11%float;
     Scan.entry_date := Some (bar_time 20) |}.

(** ** Further readings of the scan *)

(** Signal [s] is stamped on a bar of [df] at or after position [lo] and
    priced at its close. *)
Definition stamped_on (df : DataFrame) (lo : nat) (s : TradeSignal) : Prop :=
  exists i r, (lo <= i)%nat /\ nth_error df i = Some r
              /\ timestamp s = date r /\ price s = close r.

(** The entry price and date of the loop state are those of the signal
    emitted last while a position is open, and are reset while none is. *)
Definition mirrors_last_signal (st : locals) : Prop :=
  if position_open st then
    exists earlier_ones s, Scan.signals st = earlier_ones ++ [s]
              /\ entry_price st = price s
              /\ entry_date st = Some (timestamp s)
  else entry_price st = 0%float /\ entry_date st = None.

(** The calendar-day limit of the holding-period exit, for the classes
    that have one. *)
Definition hold_limit (c : StrategyClass) : option Z :=
  match c with
  | ACCStrategy => Some 8
  | AdaniEnterprisesStrategy => Some 10
  | AdaniPowerStrategy => None
  | AdaniPortsStrategy => Some 10
  end.

(** The stop and target that class [c] records on a signal priced [p] at a
    bar whose ATR is [atr]. *)
Definition stop_and_target (c : StrategyClass) (p atr : float)
  : float * float :=
  match c with
  | ACCStrategy => (p - atr * 1.2, p + atr * 2.0)
  | AdaniEnterprisesStrategy => (p * 0.97, p * 1.12)
  | AdaniPowerStrategy => (p * 0.94, p * 1.12)
  | AdaniPortsStrategy => (p * 0.95, p * 1.12)
  end%float.

(** The floats that the entry test of class [c] reads at bar [r], whose
    predecessor is [prev]. *)
Definition entry_inputs (c : StrategyClass) (prev r : Row) : list float :=
  match c with
  | ACCStrategy =>
      [ close r; SMA_20 r; SMA_50 r; SMA_200 r; RSI r; ATR r; ATR_MA r;
        MACD r; MACD_Signal r; MACD_Hist r; Volume_Ratio r; ROC_5 r;
        ROC_20 r ]
  | AdaniEnterprisesStrategy => [ close r; High_20 prev ]
  | AdaniPowerStrategy => [ SMA_50 prev; SMA_200 prev; SMA_50 r; SMA_200 r ]
  | AdaniPortsStrategy => [ close r; High_30 prev ]
  end.


(** ** [ChartManager]: the signal markers of the price chart

    Of [create_price_chart] the loop over the signals is embedded: the
    arguments of the [go.Scatter] traces it adds to the figure, in the
    order it adds them.  The candlestick and indicator traces built before
    it belong to the plotting library. *)

Module ChartManager.

(** [self.colors] *)
Definition colors : list (string * string) :=
  [ ("long", "#00ff00"); ("short", "#ff0000"); ("profit", "#00ff00");
    ("loss", "#ff0000"); ("neutral", "#808080") ]%string.

(** [d[key]]; [None] stands for [KeyError]. *)
Fixpoint getitem (d : list (string * string)) (key : string)
  : option string :=
  match d with
  | [] => None
  | (k, v) :: rest => if String.eqb k key then Some v else getitem rest key
  end.

(** The arguments of one marker trace. *)
Record Marker : Type := mkMarker {
  x : list Z;
  y : list float;
  mode : string;
  symbol : string;
  size : Z;
  color : string;
  name : string;
  text : string;
  showlegend : bool
}.

(** The legend flags of the loop. *)
Record flags : Type := mkFlags {
  long_signal_plotted : bool;
  short_signal_plotted : bool
}.

(** One iteration of [for signal in signals]. *)
Definition marker_body (signal : TradeSignal) (st : flags)
  : option (Marker * flags) :=
  let is_long := String.eqb (type signal) "LONG" in
  match (if is_long then getitem colors "long"
         else getitem colors "short") with
  | None => None
  | Some color =>
      let '(show_legend, st') :=
        if is_long && negb (long_signal_plotted st) then
          (true, {| long_signal_plotted := true;
                    short_signal_plotted := short_signal_plotted st |})
        else if String.eqb (type signal) "SHORT"
                && negb (short_signal_plotted st) then
          (true, {| long_signal_plotted := long_signal_plotted st;
                    short_signal_plotted := true |})
        else (false, st) in
      Some ({| x := [timestamp signal];
               y := [price signal];
               mode := "markers";
               symbol := if is_long then "triangle-up" else "triangle-down";
               size := 15;
               color := color;
               name := type signal ++ " Signal";
               text := reason signal;
               showlegend := show_legend |}, st')
  end.

Fixpoint markers_from (st : flags) (signals : list TradeSignal)
  : option (list Marker) :=
  match signals with
  | [] => Some []
  | signal :: rest =>
      match marker_body signal st with
      | None => None
      | Some (m, st') =>
          match markers_from st' rest with
          | None => None
          | Some ms => Some (m :: ms)
          end
      end
  end.

(** The marker traces [create_price_chart] adds for [signals]. *)
Definition signal_markers (signals : list TradeSignal)
  : option (list Marker) :=
  markers_from {| long_signal_plotted := false;
                  short_signal_plotted := false |} signals.

End ChartManager.

(** Signal number [k] of [sigs] is the first one of type [ty]. *)
Definition first_of (ty : string) (sigs : list TradeSignal) (k : nat)
  : Prop :=
  (exists s, nth_error sigs k = Some s /\ type s = ty)
  /\ forall j s, (j < k)%nat -> nth_error sigs j = Some s -> type s <> ty.

(** Marker [m] draws signal [s] as a long entry: an up-triangle in the
    long colour at the signal's timestamp and price, named 'LONG Signal',
    with the signal's reason as hover text. *)
Definition long_marker (s : TradeSignal) (m : ChartManager.Marker) : Prop :=
  ChartManager.x m = [timestamp s]
  /\ ChartManager.y m = [price s]
  /\ ChartManager.mode m = "markers"%string
  /\ ChartManager.symbol m = "triangle-up"%string
  /\ ChartManager.color m = "#00ff00"%string
  /\ ChartManager.name m = "LONG Signal"%string
  /\ ChartManager.text m = reason s.

(** ** [DataManager]: loading and windowing the bar series

    The file system and the libraries that parse a file and compute the
    indicator columns are parameters: [file_exists] answers
    [file_path.exists()], [read_frame] stands for reading one file into a
    frame indexed by date, [calculate_technical_indicators] for the method
    of that name.  Each may raise an exception of its own, kept apart from
    the [ValueError] that [get_stock_data] raises itself.  The date bounds
    are given as the timestamps that [pd.to_datetime] (and the
    localisation to the zone of the index) makes of them; [None] is a bound
    that is absent or falsy. *)

Module DataManager.

Record Bar : Type := mkBar {
  date : Z;
  open : float;
  high : float;
  low : float;
  close : float;
  volume : float
}.

Definition Frame : Type := list Bar.

Inductive error (E : Type) : Type :=
| ValueError (message : string)
| External (e : E).

Arguments ValueError {E} message.
Arguments External {E} e.

Inductive outcome (E A : Type) : Type :=
| Done (a : A)
| Fail (e : error E).

Arguments Done {E A} a.
Arguments Fail {E A} e.

(** [d[key]] and [key in d] on a dict in insertion order. *)
Fixpoint lookup {A : Type} (d : list (string * A)) (key : string)
  : option A :=
  match d with
  | [] => None
  | (k, v) :: rest => if String.eqb k key then Some v else lookup rest key
  end.

(** [d[key] = v] *)
Fixpoint setitem {A : Type} (d : list (string * A)) (key : string) (v : A)
  : list (string * A) :=
  match d with
  | [] => [(key, v)]
  | (k, w) :: rest =>
      if String.eqb k key then (k, v) :: rest
      else (k, w) :: setitem rest key v
  end.

(** The table of [load_all_data]. *)
Definition stock_files : list (string * string) :=
  [ ("ACC", "ACC-15minute");
    ("Adani Enterprises", "ADANIENT-15minute");
    ("Adani Power", "ADANIPOWER-15minute");
    ("Adani Ports", "ADANIPORTS-15minute") ]%string.

(** [df[df.index >= start]] and [df[df.index <= end]] *)
Definition from_date (start : Z) (df : Frame) : Frame :=
  filter (fun r => start <=? date r) df.

Definition to_date (end_ : Z) (df : Frame) : Frame :=
  filter (fun r => date r <=? end_) df.

(** The two optional date filters of [get_stock_data], in its order. *)
Definition window (start_date end_date : option Z) (df : Frame) : Frame :=
  let df := match start_date with
            | Some start => from_date start df
            | None => df
            end in
  match end_date with
  | Some end_ => to_date end_ df
  | None => df
  end.

Record manager : Type := mkManager {
  data_dir : string;
  stock_data : list (string * Frame)
}.

Section Manager.

Variable E : Type.
Variable Table : Type.
Variable file_exists : string -> string -> bool.
Variable read_frame : string -> string -> outcome E Frame.
Variable calculate_technical_indicators : Frame -> outcome E Table.

(** The loop of [load_all_data] over the entries of the table. *)
Fixpoint load_files (files : list (string * string)) (self : manager)
  : outcome E manager :=
  match files with
  | [] => Done self
  | (stock_name, file_name) :: rest =>
      if file_exists (data_dir self) file_name then
        match read_frame (data_dir self) file_name with
        | Done df =>
            load_files rest
              {| data_dir := data_dir self;
                 stock_data := setitem (stock_data self) stock_name df |}
        | Fail e => Fail e
        end
      else load_files rest self
  end.

Definition load_all_data (self : manager) : outcome E manager :=
  load_files stock_files self.

(** [DataManager(data_dir)] *)
Definition init (dir : string) : outcome E manager :=
  load_all_data {| data_dir := dir; stock_data := [] |}.

Definition get_stock_data (self : manager) (stock_name : string)
           (start_date end_date : option Z) : outcome E Table :=
  match lookup (stock_data self) stock_name with
  | None =>
      Fail (ValueError ("Stock " ++ stock_name ++ " not found in data"))
  | Some df => calculate_technical_indicators (window start_date end_date df)
  end.

End Manager.

End DataManager.

(** A file system that holds the ACC file only, read as two bars, with the
    indicator computation handing its frame back. *)
Definition acc_only (dir file : string) : bool :=
  String.eqb file "ACC-15minute".

Definition two_bars : DataManager.Frame :=
  [ {| DataManager.date := bar_time 0; DataManager.open := 9;
       DataManager.high := 10; DataManager.low := 8;
       DataManager.close := 9; DataManager.volume := 100 |};
    {| DataManager.date := bar_time 1; DataManager.open := 9;
       DataManager.high := 11; DataManager.low := 9;
       DataManager.close := 10; DataManager.volume := 120 |} ]%float.

Definition read_two_bars (dir file : string)
  : DataManager.outcome Empty_set DataManager.Frame :=
  DataManager.Done two_bars.

Definition hand_back (df : DataManager.Frame)
  : DataManager.outcome Empty_set DataManager.Frame :=
  DataManager.Done df.

(** A manager that holds the two bars under the name ACC. *)
Definition two_bar_manager : DataManager.manager :=
  {| DataManager.data_dir := "csv_data";
     DataManager.stock_data := [ ("ACC"%string, two_bars) ] |}.

(** Bar [r] lies within the bounds that are given. *)
Definition in_window (start_date end_date : option Z) (r : DataManager.Bar)
  : Prop :=
  (forall t, start_date = Some t -> t <= DataManager.date r)
  /\ (forall t, end_date = Some t -> DataManager.date r <= t).

(** ** [ChartManager]: the curves of the performance and drawdown charts

    The series plotted by [create_performance_chart] and
    [create_drawdown_chart].  A cumulative operation of pandas skips
    missing values: it replaces each NaN by the neutral value of the
    operation, accumulates from left to right, and puts NaN back at the
    places it replaced. *)

(** [ufunc.accumulate]: [r0 = x0], [r(i) = op r(i-1) x(i)]. *)
Fixpoint accumulate_from (op : float -> float -> float) (acc : float)
         (xs : list float) : list float :=
  match xs with
  | [] => []
  | x :: rest => let a := op acc x in a :: accumulate_from op a rest
  end.

Definition accumulate (op : float -> float -> float) (xs : list float)
  : list float :=
  match xs with
  | [] => []
  | x :: rest => x :: accumulate_from op x rest
  end.

(** The element-wise combination of two arrays of one length. *)
Fixpoint map2 {A B C : Type} (f : A -> B -> C) (l1 : list A) (l2 : list B)
  : list C :=
  match l1, l2 with
  | a :: l1', b :: l2' => f a b :: map2 f l1' l2'
  | _, _ => []
  end.

Definition na_accumulate (op : float -> float -> float) (neutral : float)
           (xs : list float) : list float :=
  let mask := map is_nan xs in
  let vals := map (fun x => if is_nan x then neutral else x) xs in
  map2 (fun (m : bool) r => if m then nan else r) mask (accumulate op vals).

(** [np.maximum] on two numbers; [cummax] applies it after the NaNs were
    replaced, so that neither argument is NaN. *)
Definition maximum (a b : float) : float :=
  if (a <? b)%float then b else a.

Definition cumprod (xs : list float) : list float :=
  na_accumulate PrimFloat.mul 1%float xs.

Definition cummax (xs : list float) : list float :=
  na_accumulate maximum neg_infinity xs.

(** [(1 + returns).cumprod()] *)
Definition cumulative_returns (returns : Series) : Series :=
  {| index := index returns;
     values := cumprod (map (fun x => (1 + x)%float) (values returns)) |}.

(** The series plotted by [create_performance_chart]. *)
Definition performance_curve (returns : Series) : Series :=
  cumulative_returns returns.

(** The series plotted by [create_drawdown_chart]:
    [(cumulative_returns / running_max - 1) * 100]. *)
Definition drawdown_curve (returns : Series) : Series :=
  let cumulative := cumulative_returns returns in
  let running_max := cummax (values cumulative) in
  {| index := index cumulative;
     values := map2 (fun c m => ((c / m - 1) * 100)%float)
                    (values cumulative) running_max |}.

(** The first [m] elements of [l] are all [c]. *)
Definition starts_with {A : Type} (m : nat) (c : A) (l : list A) : Prop :=
  forall n, (n < m)%nat -> nth_error l n = Some c.

(** The price conditions among the exit conditions of class [c], for an
    entry price [p] and the close [c0] of the bar: the 2% stop and 4%
    target of ACC, the 3% stop of Adani Enterprises, the 5% stop of Adani
    Ports; Adani Power has none. *)
Definition price_exit (c : StrategyClass) (p c0 : float) : bool :=
  match c with
  | ACCStrategy => (c0 <=? p * 0.98) || (c0 >=? p * 1.04)
  | AdaniEnterprisesStrategy => c0 <=? p * 0.97
  | AdaniPowerStrategy => false
  | AdaniPortsStrategy => c0 <=? p * 0.95
  end%float.

(** ** Construction of a strategy and the run of a backtest

    [BaseStrategy.__init__] stores the frame and an empty signal list; the
    constructor of each class then attaches its indicator columns.  The
    values of the columns are inputs of the model: the rows carry them.
    What the model keeps of a constructor is whether it returns.  A column
    computed by a rolling window of pandas is attached to a frame of any
    length.  A column asked of the indicator library with [length=n] is
    attached only to a frame of at least [n] bars: for a shorter frame the
    library hands back no series, and the statement that assigns its
    result to the column (for the MACD, that subscripts it) raises. *)

Inductive construction : Type :=
| Constructed (self : Strategy)
| InitRaises.

(** [self.data[column] = self.data.ta.<indicator>(length=n)], followed by
    the rest [k] of the constructor. *)
Definition assign_indicator (n : nat) (df : DataFrame) (k : construction)
  : construction :=
  if (n <=? length df)%nat then k else InitRaises.

(** [BaseStrategy.__init__] *)
Definition Base_init (c : StrategyClass) (df : DataFrame) : Strategy :=
  {| class := c; data := df; signals := [] |}.

(** [ACCStrategy.__init__]: SMA_20, SMA_50, SMA_200, RSI, ATR, the three
    MACD columns (slow period 26), ROC_5 and ROC_20 come from the
    indicator library; ATR_MA, Higher_High, Lower_Low, Volume_MA and
    Volume_Ratio from rolling windows. *)
Definition ACC_init (df : DataFrame) : construction :=
  assign_indicator 20 df
   (assign_indicator 50 df
    (assign_indicator 200 df
     (assign_indicator 14 df
      (assign_indicator 14 df
       (assign_indicator 26 df
        (assign_indicator 26 df
         (assign_indicator 26 df
          (assign_indicator 5 df
           (assign_indicator 20 df
            (Constructed (Base_init ACCStrategy df))))))))))).

(** [AdaniEnterprisesStrategy.__init__]: High_20 is a rolling window. *)
Definition AdaniEnterprises_init (df : DataFrame) : construction :=
  Constructed (Base_init AdaniEnterprisesStrategy df).

(** [AdaniPowerStrategy.__init__]: SMA_50 and SMA_200 come from the
    indicator library. *)
Definition AdaniPower_init (df : DataFrame) : construction :=
  assign_indicator 50 df
   (assign_indicator 200 df
    (Constructed (Base_init AdaniPowerStrategy df))).

(** [AdaniPortsStrategy.__init__]: High_30 is a rolling window. *)
Definition AdaniPorts_init (df : DataFrame) : construction :=
  Constructed (Base_init AdaniPortsStrategy df).

(** [strategy_class(stock_data)] *)
Definition init (c : StrategyClass) (df : DataFrame) : construction :=
  match c with
  | ACCStrategy => ACC_init df
  | AdaniEnterprisesStrategy => AdaniEnterprises_init df
  | AdaniPowerStrategy => AdaniPower_init df
  | AdaniPortsStrategy => AdaniPorts_init df
  end.

(** The outcome of a backtest: the signals and the return series, or an
    exception that ends it. *)
Inductive backtest : Type :=
| Completed (sigs : list TradeSignal) (returns : Series)
| Fatal.

(** The run of one strategy as the dashboard makes it:
    [strategy = strategy_class(stock_data)],
    [signals = strategy.generate_signals()],
    [returns = strategy.calculate_returns()]. *)
Definition run_strategy (c : StrategyClass) (df : DataFrame) : backtest :=
  match init c df with
  | InitRaises => Fatal
  | Constructed strategy =>
      match generate_signals strategy with
      | Raise _ => Fatal
      | Ok (sigs, strategy) =>
          match calculate_returns strategy with
          | Raise _ => Fatal
          | Ok (returns, _) => Completed sigs returns
          end
      end
  end.

(** The longest length a constructor asks of the indicator library: 200
    bars for ACC and Adani Power, none for the two breakout classes. *)
Definition longest_lookback (c : StrategyClass) : nat :=
  match c with
  | ACCStrategy => 200
  | AdaniEnterprisesStrategy => 0
  | AdaniPowerStrategy => 200
  | AdaniPortsStrategy => 0
  end.

(** Five bars and two hundred bars of the ACC sample. *)
Definition five_bars : DataFrame := map (acc_row 1%float) (seq 0 5).

Definition two_hundred_bars : DataFrame := map (acc_row 1%float) (seq 0 200).
(** * Properties of the scan *)

Ltac case_match :=
  match goal with
  | H : context [match ?x with _ => _ end] |- _ =>
      lazymatch x with
      | context [match _ with _ => _ end] => fail
      | _ => destruct x eqn:?
      end
  | |- context [match ?x with _ => _ end] =>
      lazymatch x with
      | context [match _ with _ => _ end] => fail
      | _ => destruct x eqn:?
      end
  end.

Ltac inv H := inversion H; subst; clear H.

Lemma body_step c df i st st' :
  body c df i st = Ok st' -> step c df i st st'.
Proof.
  destruct c; cbn [body];
    unfold ACC_body, AdaniEnterprises_body, AdaniPower_body, AdaniPorts_body,
      ACC_entry, AdaniEnterprises_entry, AdaniPorts_entry;
    intros H.
  all: unfold bind, iloc in H.
  all: destruct (nth_error df i) as [r|] eqn:Hr; try discriminate.
  all: destruct (position_open st) eqn:Hp; cbn [negb andb] in H.
  all: repeat (case_match; try discriminate).
  all: inv H.
  all: try (apply step_idle; assumption).
  all: try (eapply step_entry; eassumption).
  all: try (apply step_exit; [assumption|]).
  all: try (apply step_hold; [assumption|]).
  all: unfold exit_fires, exit_guard, bind, iloc; rewrite ?Hr, ?Hp; cbn [andb].
  all: repeat match goal with H : _ = _ |- _ => rewrite H end; try reflexivity.
Qed.

Lemma step_well_formed c df i st st' :
  step c df i st st' -> well_formed st -> well_formed st'.
Proof.
  intros Hs Hw. inv Hs; try assumption; unfold well_formed; cbn;
    intros; discriminate.
Qed.

(** A bar inside the frame with a predecessor never raises. *)
Lemma body_total c df i st :
  (1 <= i < length df)%nat -> well_formed st ->
  exists st', body c df i st = Ok st'.
Proof.
  intros [Hlo Hhi] Hw.
  destruct (nth_error df i) as [r|] eqn:Hr;
    [|apply nth_error_None in Hr; lia].
  destruct (nth_error df (i - 1)) as [p|] eqn:Hp;
    [|apply nth_error_None in Hp; lia].
  assert (Hd : position_open st = true ->
               exists d, held_days (date r) st = Ok d).
  { intros Ho. specialize (Hw Ho). unfold held_days.
    destruct (entry_date st); [eauto | congruence]. }
  destruct c; cbn [body];
    unfold ACC_body, AdaniEnterprises_body, AdaniPower_body, AdaniPorts_body,
      ACC_entry, AdaniEnterprises_entry, AdaniPorts_entry,
      ACC_exit_conditions, AdaniEnterprises_exit_conditions,
      AdaniPorts_exit_conditions, bind, iloc;
    rewrite Hr, ?Hp.
  all: destruct (position_open st) eqn:Ho; cbn [negb andb];
    [destruct (Hd eq_refl) as [d Hd']; rewrite ?Hd' | ]; rewrite ?Hp.
  all: repeat case_match; eauto.
Qed.

Lemma for_each_app {St : Type} (f : nat -> St -> result St) l1 l2 st :
  for_each f (l1 ++ l2) st = (st1 <- for_each f l1 st ;; for_each f l2 st1).
Proof.
  revert st. induction l1 as [|i l1 IH]; intros st; cbn; [reflexivity|].
  destruct (f i st); cbn; [apply IH | reflexivity].
Qed.

Lemma for_each_total c df idxs st :
  Forall (fun i => (1 <= i < length df)%nat) idxs -> well_formed st ->
  exists st', for_each (body c df) idxs st = Ok st' /\ well_formed st'.
Proof.
  intros Hb. revert st. induction Hb as [|i idxs Hi _ IH]; intros st Hw.
  - exists st. split; [reflexivity | assumption].
  - destruct (body_total c df i st Hi Hw) as [st1 H1].
    cbn. rewrite H1. cbn. apply IH.
    eapply step_well_formed; [apply body_step; eassumption | assumption].
Qed.

Lemma range_bounds lo hi :
  Forall (fun i => (lo <= i < hi)%nat) (range lo hi).
Proof.
  apply Forall_forall. intros i Hi. unfold range in Hi.
  apply in_seq in Hi. lia.
Qed.

Lemma warmup_pos c : (1 <= warmup c)%nat.
Proof. destruct c; cbn; lia. Qed.

Lemma range_in_frame c n m :
  (m <= n)%nat ->
  Forall (fun i => (1 <= i < n)%nat) (range (warmup c) m).
Proof.
  intros Hm. eapply Forall_impl; [|apply range_bounds].
  cbn. intros i Hi. pose proof (warmup_pos c). lia.
Qed.

Lemma well_formed_init : well_formed Scan.init.
Proof. unfold well_formed. cbn. discriminate. Qed.

(** The scan of a constructed instance never raises. *)
Lemma scan_total self :
  exists st, scan self = Ok st /\ well_formed st.
Proof.
  apply for_each_total; [|apply well_formed_init].
  apply range_in_frame. lia.
Qed.

Lemma generate_signals_scan self :
  generate_signals self = (st <- scan self ;; Ok (finish self st)).
Proof. unfold generate_signals, scan. destruct (class self); reflexivity. Qed.

(** *** What an observer records at each kind of step *)

Lemma observe_step c df i st st' :
  step c df i st st' ->
  (observe c df i st st' = [Exit i] /\ position_open st = true
   /\ position_open st' = false /\ Scan.signals st' = Scan.signals st)
  \/ (observe c df i st st' = [] /\ st' = st)
  \/ (exists r, observe c df i st st' = [Entry i]
        /\ position_open st = false /\ position_open st' = true
        /\ nth_error df i = Some r
        /\ Scan.signals st' = Scan.signals st ++ [signal_of c r]).
Proof.
  intros Hs. unfold observe, emitted. inv Hs;
    unfold close_position, open_position; cbn [Scan.signals position_open].
  - left. rewrite H0, Nat.ltb_irrefl. auto.
  - right; left. rewrite H0, Nat.ltb_irrefl. auto.
  - right; right. exists r. unfold exit_fires. rewrite H, length_app.
    replace (_ <? _)%nat with true
      by (symmetry; apply Nat.ltb_lt; cbn; lia).
    auto.
  - right; left. unfold exit_fires. rewrite H, Nat.ltb_irrefl. auto.
Qed.

Lemma timeline_weaken opened lo lo' tr :
  (lo' <= lo)%nat -> timeline opened lo tr -> timeline opened lo' tr.
Proof.
  destruct tr as [|[k|j] tr]; cbn; intuition lia.
Qed.

(** The transitions of a scan over increasing bars form a timeline, and the
    signals appended are those of its entries, in order. *)
Lemma for_each_timeline c df idxs : forall lo st st',
  StronglySorted lt idxs -> Forall (fun i => (lo <= i)%nat) idxs ->
  for_each (body c df) idxs st = Ok st' ->
  timeline (position_open st) lo (transitions c df idxs st)
  /\ exists new, Scan.signals st' = Scan.signals st ++ new
       /\ Forall2 (signal_at c df) new (entries (transitions c df idxs st)).
Proof.
  induction idxs as [|i idxs IH]; intros lo st st' Hsort Hlo Hrun.
  - cbn in *. inv Hrun. split; [exact I|]. exists []. rewrite app_nil_r. auto.
  - cbn in Hrun |- *. destruct (body c df i st) as [st1|] eqn:Hb;
      [|discriminate]. cbn in Hrun.
    apply StronglySorted_inv in Hsort. destruct Hsort as [Hsort Hgt].
    apply Forall_inv in Hlo.
    assert (Hnext : Forall (fun k => (S i <= k)%nat) idxs).
    { eapply Forall_impl; [|exact Hgt]. cbn. intros; lia. }
    destruct (IH (S i) st1 st' Hsort Hnext Hrun) as [Htl [new [Hsig Hent]]].
    apply body_step in Hb.
    destruct (observe_step _ _ _ _ _ Hb)
      as [(Ho & Hp & Hp' & Hs) | [(Ho & ->) | (r & Ho & Hp & Hp' & Hr & Hs)]];
      rewrite Ho; cbn.
    + rewrite Hp' in Htl. repeat split; try assumption.
      exists new. rewrite Hsig, Hs. auto.
    + split; [eapply timeline_weaken; [|eassumption]; lia|].
      exists new. auto.
    + rewrite Hp' in Htl. repeat split; try assumption.
      exists (signal_of c r :: new). rewrite Hsig, Hs, <- app_assoc. cbn.
      split; [reflexivity|]. constructor; [|assumption].
      exists r. auto.
Qed.

Lemma timeline_alternating opened lo tr :
  timeline opened lo tr -> alternating opened tr = true.
Proof.
  revert opened lo. induction tr as [|[k|j] tr IH]; intros opened lo; cbn;
    [reflexivity| |]; intros (-> & _ & Htl); cbn; eauto.
Qed.

Lemma timeline_bars opened lo tr i :
  timeline opened lo tr -> (In (Exit i) tr \/ In (Entry i) tr) ->
  (lo <= i)%nat.
Proof.
  revert opened lo. induction tr as [|[k|j] tr IH]; intros opened lo; cbn.
  - intuition.
  - intros (_ & Hk & Htl) [[H|H]|[H|H]]; try discriminate;
      try (inv H; assumption);
      (enough (S k <= i)%nat by lia; eapply IH; eauto).
  - intros (_ & Hk & Htl) [[H|H]|[H|H]]; try discriminate;
      try (inv H; assumption);
      (enough (S j <= i)%nat by lia; eapply IH; eauto).
Qed.

(** No bar carries both an exit and an entry. *)
Lemma timeline_exclusive opened lo tr i :
  timeline opened lo tr -> In (Exit i) tr -> ~ In (Entry i) tr.
Proof.
  revert opened lo. induction tr as [|[k|j] tr IH]; intros opened lo; cbn.
  - intuition.
  - intros (_ & Hk & Htl) [H|H] [H'|H']; try discriminate.
    + inv H. pose proof (timeline_bars _ _ _ i Htl (or_intror H')). lia.
    + eapply IH; eauto.
  - intros (_ & Hk & Htl) [H|H] [H'|H']; try discriminate.
    + inv H'. pose proof (timeline_bars _ _ _ i Htl (or_introl H)). lia.
    + eapply IH; eauto.
Qed.

Lemma timeline_first_entry opened lo tr j rest :
  timeline opened lo tr -> entries tr = j :: rest ->
  (lo + (if opened then 1 else 0) <= j)%nat.
Proof.
  revert opened lo. induction tr as [|[k|i] tr IH]; intros opened lo; cbn.
  - discriminate.
  - intros (-> & Hk & Htl) He. specialize (IH _ _ Htl He). cbn in IH. lia.
  - intros (-> & Hi & Htl) He. inv He. lia.
Qed.

Lemma timeline_spaced opened lo tr :
  timeline opened lo tr -> spaced (entries tr).
Proof.
  revert opened lo. induction tr as [|[k|i] tr IH]; intros opened lo; cbn.
  - auto.
  - intros (_ & _ & Htl). exact (IH _ _ Htl).
  - intros (_ & _ & Htl). specialize (IH _ _ Htl).
    destruct (entries tr) as [|j rest] eqn:He; [exact I|]. split.
    + pose proof (timeline_first_entry _ _ _ _ _ Htl He) as H. cbn in H. lia.
    + exact IH.
Qed.

Lemma range_sorted lo hi : StronglySorted lt (range lo hi).
Proof.
  unfold range. generalize (hi - lo)%nat as n. intros n. revert lo.
  induction n as [|n IH]; intros lo; cbn; constructor; [apply IH|].
  apply Forall_forall. intros k Hk. apply in_seq in Hk. lia.
Qed.

(** The facts about a whole scan that the claims below draw on. *)
Lemma scan_timeline self :
  exists st, scan self = Ok st
    /\ timeline false (warmup (class self)) (scan_transitions self)
    /\ Forall2 (signal_at (class self) (data self)) (Scan.signals st)
               (entries (scan_transitions self)).
Proof.
  destruct (scan_total self) as [st [Hrun _]]. exists st.
  split; [assumption|].
  destruct (for_each_timeline _ _ _ (warmup (class self)) _ _
              (range_sorted _ _) (Forall_impl _ (fun i H => proj1 H)
                                    (range_bounds _ _)) Hrun)
    as [Htl [new [Hsig Hent]]].
  cbn in Hsig. subst new. auto.
Qed.

(** A signal is appended only by a step that starts FLAT and ends
    LONG_OPEN. *)
Lemma emitted_from_flat c df i st st' :
  body c df i st = Ok st' -> emitted st st' = true ->
  position_open st = false /\ position_open st' = true.
Proof.
  intros Hb He. apply body_step in Hb. unfold emitted in He.
  inv Hb; unfold close_position, open_position in *;
    cbn [Scan.signals position_open] in *;
    rewrite ?Nat.ltb_irrefl in He; try discriminate; auto.
Qed.

(** The bar whose exit guard fires appends no signal. *)
Lemma exit_bar_skipped c df i st st' :
  body c df i st = Ok st' -> exit_fires c df i st = true ->
  position_open st' = false /\ Scan.signals st' = Scan.signals st.
Proof.
  intros Hb He. apply body_step in Hb.
  assert (Ho : position_open st = true).
  { unfold exit_fires in He. apply andb_prop in He. tauto. }
  inv Hb; try congruence. auto.
Qed.

Lemma signal_of_long c r : type (signal_of c r) = "LONG"%string.
Proof. destruct c; reflexivity. Qed.

(** ** Position state *)

(** C2: in every strategy and on every bar series the scan never raises,
    its transitions strictly alternate between entry (from FLAT) and exit
    (from LONG_OPEN) starting FLAT, the emitted signals are exactly the
    entries in order, and a bar emits a signal only from a FLAT state. *)
Theorem position_state_alternates (self : Strategy) :
  exists st,
    scan self = Ok st
    /\ generate_signals self = Ok (finish self st)
    /\ alternating false (scan_transitions self) = true
    /\ Forall2 (signal_at (class self) (data self)) (Scan.signals st)
               (entries (scan_transitions self))
    /\ forall i st1 st2,
         body (class self) (data self) i st1 = Ok st2 ->
         emitted st1 st2 = true ->
         position_open st1 = false /\ position_open st2 = true.
Proof.
  destruct (scan_timeline self) as (st & Hrun & Htl & Hsig).
  exists st. repeat split; try assumption.
  - rewrite generate_signals_scan, Hrun. reflexivity.
  - eapply timeline_alternating; eassumption.
  - eapply emitted_from_flat; eassumption.
  - eapply emitted_from_flat; eassumption.
Qed.

(** C9: every signal returned by [generate_signals] has type 'LONG', and
    none has type 'SHORT'. *)
Theorem signals_are_long (self : Strategy) :
  exists sigs self',
    generate_signals self = Ok (sigs, self')
    /\ Forall (fun s => type s = "LONG"%string) sigs
    /\ Forall (fun s => type s <> "SHORT"%string) sigs.
Proof.
  destruct (scan_timeline self) as (st & Hrun & _ & Hsig).
  exists (Scan.signals st), (set_signals self (Scan.signals st)).
  rewrite generate_signals_scan, Hrun. split; [reflexivity|].
  assert (Hl : Forall (fun s => type s = "LONG"%string) (Scan.signals st)).
  { induction Hsig as [|s i sigs idxs (r & _ & ->) _ IH]; constructor;
      [apply signal_of_long | assumption]. }
  split; [assumption|].
  eapply Forall_impl; [|exact Hl]. cbn. intros s ->. discriminate.
Qed.

(** C10: in every strategy the emitted signals are the entries of the
    scan, consecutive entries lie at least two bars apart, no bar carries
    both an exit and an entry, and the bar whose exit guard fires leaves
    the position closed without appending a signal. *)
Theorem exit_bar_never_enters (self : Strategy) :
  exists st,
    scan self = Ok st
    /\ Forall2 (signal_at (class self) (data self)) (Scan.signals st)
               (entries (scan_transitions self))
    /\ spaced (entries (scan_transitions self))
    /\ (forall i, In (Exit i) (scan_transitions self) ->
                  ~ In (Entry i) (scan_transitions self))
    /\ forall i st1 st2,
         body (class self) (data self) i st1 = Ok st2 ->
         exit_fires (class self) (data self) i st1 = true ->
         position_open st2 = false /\ Scan.signals st2 = Scan.signals st1.
Proof.
  destruct (scan_timeline self) as (st & Hrun & Htl & Hsig).
  exists st. repeat split; try assumption.
  - eapply timeline_spaced; eassumption.
  - intros i. eapply timeline_exclusive; eassumption.
  - eapply exit_bar_skipped; eassumption.
  - eapply exit_bar_skipped; eassumption.
Qed.

(** * Properties of [calculate_returns] *)

Lemma for_enumerate_total {St A : Type} (f : nat -> A -> St -> result St)
      (P : St -> Prop) xs :
  (forall i x st, P st -> exists st', f i x st = Ok st' /\ P st') ->
  forall i st, P st -> exists st', for_enumerate f i xs st = Ok st' /\ P st'.
Proof.
  intros Hf. induction xs as [|x xs IH]; intros i st Hst; cbn.
  - eauto.
  - destruct (Hf i x st Hst) as (st1 & -> & H1). cbn. apply IH, H1.
Qed.

Lemma returns_body_total self i signal st :
  returns_well_formed st ->
  exists st', returns_body self i signal st = Ok st'
              /\ returns_well_formed st'.
Proof.
  intros Hw. unfold returns_body.
  set (st1 := if String.eqb (type signal) "LONG" then _ else st).
  assert (H1 : returns_well_formed st1).
  { subst st1. destruct (String.eqb _ _); [|assumption].
    unfold returns_well_formed. cbn. discriminate. }
  clearbody st1. destruct (Ret.position st1 =? 1) eqn:Hp; [|eauto].
  apply Z.eqb_eq in Hp. specialize (H1 Hp) as He.
  destruct (Ret.entry_index st1) as [t|] eqn:Ht; [|congruence].
  unfold index_gt, iloc, bind.
  destruct (i + 1 <? length (signals self))%nat eqn:Hn.
  - rewrite Hn.
    destruct (nth_error (signals self) (i + 1)) eqn:Hx;
      [|apply nth_error_None in Hx; apply Nat.ltb_lt in Hn; lia].
    destruct (any _); eexists; (split; [reflexivity|]); try assumption.
    unfold returns_well_formed. cbn. discriminate.
  - rewrite Nat.ltb_irrefl.
    destruct (any _); eexists; (split; [reflexivity|]); try assumption.
    unfold returns_well_formed. cbn. discriminate.
Qed.

(** [calculate_returns] never raises and leaves the instance as it is. *)
Lemma calculate_returns_total self :
  exists rets, calculate_returns self = Ok (rets, self).
Proof.
  unfold calculate_returns.
  edestruct (for_enumerate_total (returns_body self) returns_well_formed
               (signals self)) as (st & -> & _).
  - intros. apply returns_body_total. assumption.
  - unfold returns_well_formed. cbn. discriminate.
  - cbn. eauto.
Qed.

(** ** Input shorter than the warm-up window *)

Lemma warmup_window_spec c : warmup_window c = S (warmup c).
Proof. destruct c; reflexivity. Qed.

(** On an instance that was constructed over a bar series shorter than the
    warm-up window of its class, [generate_signals] returns the empty list
    without raising, and the following [calculate_returns] returns the
    all-zero series over the index of the frame. *)
Lemma empty_scan_of_short_input (self : Strategy) :
  (length (data self) < warmup_window (class self))%nat ->
  generate_signals self = Ok ([], set_signals self [])
  /\ calculate_returns (set_signals self [])
     = Ok ({| index := map date (data self);
              values := repeat 0%float (length (data self)) |},
           set_signals self []).
Proof.
  intros Hlen. rewrite warmup_window_spec in Hlen.
  rewrite generate_signals_scan. unfold scan, range.
  replace (length (data self) - warmup (class self))%nat with 0%nat by lia.
  split; reflexivity.
Qed.

Lemma init_constructs c df :
  init c df = if (longest_lookback c <=? length df)%nat
              then Constructed (Base_init c df) else InitRaises.
Proof.
  destruct c; cbn [init longest_lookback]; try reflexivity;
    unfold ACC_init, AdaniPower_init, assign_indicator;
    destruct (Nat.leb_spec 200 (length df)) as [H200|H200].
  - replace (20 <=? length df)%nat with true
      by (symmetry; apply Nat.leb_le; lia).
    replace (50 <=? length df)%nat with true
      by (symmetry; apply Nat.leb_le; lia).
    replace (200 <=? length df)%nat with true
      by (symmetry; apply Nat.leb_le; lia).
    replace (14 <=? length df)%nat with true
      by (symmetry; apply Nat.leb_le; lia).
    replace (26 <=? length df)%nat with true
      by (symmetry; apply Nat.leb_le; lia).
    replace (5 <=? length df)%nat with true
      by (symmetry; apply Nat.leb_le; lia).
    reflexivity.
  - replace (200 <=? length df)%nat with false
      by (symmetry; apply Nat.leb_gt; lia).
    destruct (20 <=? length df)%nat, (50 <=? length df)%nat; reflexivity.
  - replace (50 <=? length df)%nat with true
      by (symmetry; apply Nat.leb_le; lia).
    replace (200 <=? length df)%nat with true
      by (symmetry; apply Nat.leb_le; lia).
    reflexivity.
  - replace (200 <=? length df)%nat with false
      by (symmetry; apply Nat.leb_gt; lia).
    destruct (50 <=? length df)%nat; reflexivity.
Qed.

(** C3 (amended): for a bar series shorter than the warm-up window of the
    class (201 bars for ACC and Adani Power, 21 for Adani Enterprises, 31
    for Adani Ports), the run of a strategy (construction, then
    [generate_signals], then [calculate_returns]) completes with the empty
    signal list and the all-zero series over the index of the frame
    whenever the instance can be constructed, which is for every series in
    the two breakout classes and for a series of 200 bars in ACC and Adani
    Power; the constructors of ACC and Adani Power raise on fewer than 200
    bars, and the run ends there. *)
Theorem short_input_outcome (c : StrategyClass) (df : DataFrame) :
  (length df < warmup_window c)%nat ->
  run_strategy c df
  = if (longest_lookback c <=? length df)%nat
    then Completed [] {| index := map date df;
                         values := repeat 0%float (length df) |}
    else Fatal.
Proof.
  intros Hlen. unfold run_strategy. rewrite init_constructs.
  destruct (longest_lookback c <=? length df)%nat; [|reflexivity].
  destruct (empty_scan_of_short_input (Base_init c df) Hlen) as [Hgs Hcr].
  rewrite Hgs, Hcr. reflexivity.
Qed.

Lemma short_input_outcome_witness :
  run_strategy ACCStrategy two_hundred_bars
  = if (longest_lookback ACCStrategy <=? length two_hundred_bars)%nat
    then Completed [] {| index := map date two_hundred_bars;
                         values := repeat 0%float (length two_hundred_bars) |}
    else Fatal.
Proof.
  apply (short_input_outcome ACCStrategy two_hundred_bars). cbn. lia.
Defined.

(** C3 as stated fails: five bars are fewer than the 201 of the warm-up
    window of ACC and of Adani Power, and the run of either strategy on
    them ends with the exception its constructor raises, whereas the runs
    of the two breakout strategies on the same bars complete. *)
Lemma short_input_is_fatal_for_the_averages :
  (length five_bars < warmup_window ACCStrategy)%nat
  /\ init ACCStrategy five_bars = InitRaises
  /\ run_strategy ACCStrategy five_bars = Fatal
  /\ (length five_bars < warmup_window AdaniPowerStrategy)%nat
  /\ init AdaniPowerStrategy five_bars = InitRaises
  /\ run_strategy AdaniPowerStrategy five_bars = Fatal
  /\ run_strategy AdaniEnterprisesStrategy five_bars
     = Completed [] (zeros five_bars)
  /\ run_strategy AdaniPortsStrategy five_bars
     = Completed [] (zeros five_bars).
Proof.
  repeat split; try reflexivity; cbn; lia.
Qed.

(** ** Idempotence *)

Lemma generate_signals_ignores_signals self sigs :
  generate_signals (set_signals self sigs)
  = (st <- scan self ;; Ok (finish self st)).
Proof. rewrite generate_signals_scan. reflexivity. Qed.

(** C8: on every instance [generate_signals] and [calculate_returns]
    return without raising; neither changes the bar series; a second call
    of [generate_signals] returns the same list and leaves the same
    instance, and a second call of [calculate_returns] returns the same
    series. *)
Theorem calls_are_idempotent (self : Strategy) :
  exists sigs self1 rets,
    generate_signals self = Ok (sigs, self1)
    /\ data self1 = data self
    /\ generate_signals self1 = Ok (sigs, self1)
    /\ calculate_returns self1 = Ok (rets, self1)
    /\ (forall out self2,
          calculate_returns self1 = Ok (out, self2) ->
          calculate_returns self2 = Ok (rets, self1)).
Proof.
  destruct (scan_total self) as (st & Hrun & _).
  destruct (calculate_returns_total (set_signals self (Scan.signals st)))
    as [rets Hret].
  exists (Scan.signals st), (set_signals self (Scan.signals st)), rets.
  rewrite generate_signals_ignores_signals, generate_signals_scan, Hrun.
  repeat split; try reflexivity; try assumption.
  intros out self2 H. rewrite Hret in H. inv H. assumption.
Qed.

(** ** The return series *)

Lemma mask_and_map {A : Type} (p q : A -> bool) (xs : list A) :
  mask_and (map p xs) (map q xs) = map (fun x => p x && q x) xs.
Proof. induction xs as [|x xs IH]; cbn; [reflexivity | now rewrite IH]. Qed.

Lemma setitem_overwrite df p (g : float -> float) vs :
  setitem vs (map p df) (map g (loc_close df (map p df)))
  = overwrite df p (fun r => g (close r)) vs.
Proof.
  revert vs. induction df as [|r df IH]; intros [|v vs]; cbn;
    try reflexivity.
  destruct (p r); cbn; now rewrite IH.
Qed.

Lemma overwrite_none df p f vs :
  any (map p df) = false -> overwrite df p f vs = vs.
Proof.
  revert vs. induction df as [|r df IH]; intros [|v vs]; cbn;
    try reflexivity.
  unfold any in *. cbn. intros H. apply orb_false_elim in H.
  destruct H as [-> H]. now rewrite IH.
Qed.

Lemma overwrite_ext df p q f vs :
  (forall r, p r = q r) -> overwrite df p f vs = overwrite df q f vs.
Proof.
  intros H. revert vs. induction df as [|r df IH]; intros [|v vs]; cbn;
    try reflexivity.
  now rewrite H, IH.
Qed.

(** One LONG signal writes the rows its range covers. *)
Lemma returns_body_long self pre s rest st :
  signals self = pre ++ s :: rest ->
  type s = "LONG"%string ->
  exists st',
    returns_body self (length pre) s st = Ok st'
    /\ index (Ret.returns st') = index (Ret.returns st)
    /\ values (Ret.returns st')
       = overwrite (data self) (fun r => covers s (hd_error rest) (date r))
                   (simple_return s) (values (Ret.returns st)).
Proof.
  intros Hsig Hlong. unfold returns_body.
  rewrite Hlong, String.eqb_refl. cbn [Ret.position Ret.entry_index
    Ret.entry_price Ret.returns]. rewrite Z.eqb_refl, Hsig.
  rewrite length_app. cbn [length]. unfold index_gt, index_le, iloc, bind.
  destruct rest as [|s' rest].
  - cbn [length]. replace (length pre + 1 <? length pre + 1)%nat with false
      by (symmetry; apply Nat.ltb_irrefl).
    rewrite Nat.ltb_irrefl.
    destruct (any _) eqn:Hany.
    + eexists. split; [reflexivity|]. cbn. split; [reflexivity|].
      rewrite (setitem_overwrite (data self) _
                 (fun c => ((c - price s) / price s)%float)).
      apply overwrite_ext. intros r. unfold covers.
      now rewrite andb_true_r.
    + eexists. split; [reflexivity|]. cbn. split; [reflexivity|].
      symmetry. erewrite overwrite_ext; [apply overwrite_none, Hany|].
      intros r. unfold covers. now rewrite andb_true_r.
  - cbn [length].
    replace (length pre + 1 <? length pre + S (S (length rest)))%nat
      with true by (symmetry; apply Nat.ltb_lt; lia).
    replace (length pre + 1 <? length pre + S (S (length rest)))%nat
      with true by (symmetry; apply Nat.ltb_lt; lia).
    replace (nth_error (pre ++ s :: s' :: rest) (length pre + 1))
      with (Some s').
    2:{ rewrite nth_error_app2 by lia.
        replace (length pre + 1 - length pre)%nat with 1%nat by lia.
        reflexivity. }
    rewrite mask_and_map.
    destruct (any _) eqn:Hany.
    + eexists. split; [reflexivity|]. cbn. split; [reflexivity|].
      apply (setitem_overwrite (data self) _
               (fun c => ((c - price s) / price s)%float)).
    + eexists. split; [reflexivity|]. cbn. split; [reflexivity|].
      symmetry. apply overwrite_none. exact Hany.
Qed.

Lemma for_enumerate_long self : forall rest pre st,
  signals self = pre ++ rest ->
  Forall (fun s => type s = "LONG"%string) rest ->
  exists st',
    for_enumerate (returns_body self) (length pre) rest st = Ok st'
    /\ index (Ret.returns st') = index (Ret.returns st)
    /\ values (Ret.returns st')
       = apply_signals (data self) rest (values (Ret.returns st)).
Proof.
  induction rest as [|s rest IH]; intros pre st Hsig Hlong; cbn.
  - eauto.
  - apply Forall_cons_iff in Hlong. destruct Hlong as [Hs Hrest].
    destruct (returns_body_long self pre s rest st Hsig Hs)
      as (st1 & -> & Hi & Hv). cbn.
    destruct (IH (pre ++ [s]) st1) as (st' & Hrun & Hi' & Hv').
    { rewrite <- app_assoc. exact Hsig. }
    { exact Hrest. }
    rewrite length_app in Hrun. cbn in Hrun.
    replace (S (length pre)) with (length pre + 1)%nat by lia.
    exists st'. rewrite Hrun, Hi', Hi, Hv', Hv. auto.
Qed.

Lemma overwrite_length df p f vs :
  length (overwrite df p f vs) = length vs.
Proof.
  revert vs. induction df as [|r df IH]; intros [|v vs]; cbn; auto.
Qed.

Lemma overwrite_nth df p f vs n r v :
  nth_error df n = Some r -> nth_error vs n = Some v ->
  nth_error (overwrite df p f vs) n = Some (if p r then f r else v).
Proof.
  revert vs n. induction df as [|r0 df IH]; intros [|v0 vs] [|n]; cbn;
    try discriminate.
  - intros [= ->] [= ->]. reflexivity.
  - apply IH.
Qed.

Lemma apply_signals_length df sigs vs :
  length (apply_signals df sigs vs) = length vs.
Proof.
  revert vs. induction sigs as [|s sigs IH]; intros vs; cbn; [reflexivity|].
  now rewrite IH, overwrite_length.
Qed.

(** The value of a row after all writes is that of the last signal whose
    range covers it. *)
Lemma apply_signals_nth df sigs : forall vs n r v,
  nth_error df n = Some r -> nth_error vs n = Some v ->
  nth_error (apply_signals df sigs vs) n
  = Some match writer sigs (date r) with
         | Some s => simple_return s r
         | None => v
         end.
Proof.
  induction sigs as [|s sigs IH]; intros vs n r v Hr Hv; cbn.
  - assumption.
  - erewrite IH; [|eassumption | eapply overwrite_nth; eassumption].
    destruct (writer sigs (date r)); [reflexivity|].
    destruct (covers s (hd_error sigs) (date r)); reflexivity.
Qed.

Lemma nth_error_head {A : Type} (l : list A) : nth_error l 0 = hd_error l.
Proof. destruct l; reflexivity. Qed.

Lemma writer_covers sigs t w :
  writer sigs t = Some w ->
  exists k, nth_error sigs k = Some w
            /\ covers w (nth_error sigs (S k)) t = true.
Proof.
  induction sigs as [|s sigs IH]; cbn; [discriminate|].
  destruct (writer sigs t) as [w'|].
  - intros [= ->]. destruct (IH eq_refl) as (k & Hk & Hc).
    exists (S k). auto.
  - destruct (covers s (hd_error sigs) t) eqn:Hc; [|discriminate].
    intros [= ->]. exists 0%nat. rewrite nth_error_head. auto.
Qed.

Lemma writer_none sigs t :
  (forall k s, nth_error sigs k = Some s ->
               covers s (nth_error sigs (S k)) t = false) ->
  writer sigs t = None.
Proof.
  intros H. destruct (writer sigs t) as [w|] eqn:Hw; [|reflexivity].
  destruct (writer_covers _ _ _ Hw) as (k & Hk & Hc).
  rewrite (H k w Hk) in Hc. discriminate.
Qed.

Lemma sorted_from_head {A : Type} (R : A -> A -> Prop) l a b k :
  StronglySorted R l -> nth_error l 0 = Some a ->
  nth_error l (S k) = Some b -> R a b.
Proof.
  intros Hs Ha Hb. destruct l as [|x l]; [discriminate|].
  cbn in Ha, Hb. inv Ha. apply StronglySorted_inv in Hs.
  destruct Hs as [_ Hall]. rewrite Forall_forall in Hall.
  apply Hall. eapply nth_error_In; eassumption.
Qed.

(** With signals in ascending order the ranges are disjoint: the signal
    whose range covers [t] is the one that wrote last. *)
Lemma writer_unique sigs t : forall k s,
  StronglySorted earlier sigs ->
  nth_error sigs k = Some s ->
  covers s (nth_error sigs (S k)) t = true ->
  writer sigs t = Some s.
Proof.
  induction sigs as [|s0 sigs IH]; intros k s Hs Hk Hc.
  - destruct k; discriminate.
  - apply StronglySorted_inv in Hs. destruct Hs as [Hs _].
    destruct k as [|k]; cbn [writer].
    + change (nth_error (s0 :: sigs) 1) with (nth_error sigs 0) in Hc.
      cbn in Hk. inv Hk. destruct (writer sigs t) as [w|] eqn:Hw.
      * exfalso. destruct (writer_covers _ _ _ Hw) as (k & Hk & Hcw).
        unfold covers in Hc, Hcw.
        apply andb_prop in Hc. destruct Hc as [_ Hc].
        apply andb_prop in Hcw. destruct Hcw as [Hcw _].
        apply Z.ltb_lt in Hcw.
        destruct (nth_error sigs 0) as [s1|] eqn:H1;
          [|destruct sigs; [destruct k|]; discriminate].
        apply Z.leb_le in Hc.
        destruct k as [|k].
        -- rewrite H1 in Hk. inv Hk. lia.
        -- pose proof (sorted_from_head _ _ _ _ _ Hs H1 Hk) as Hlt.
           unfold earlier in Hlt. lia.
      * rewrite <- nth_error_head, Hc. reflexivity.
    + change (nth_error (s0 :: sigs) (S k)) with (nth_error sigs k) in Hk.
      change (nth_error (s0 :: sigs) (S (S k)))
        with (nth_error sigs (S k)) in Hc.
      rewrite (IH k s Hs Hk Hc). reflexivity.
Qed.

Lemma ascending_sorted ts :
  ascending ts = true -> StronglySorted Z.lt ts.
Proof.
  induction ts as [|t ts IH]; [constructor|].
  destruct ts as [|t' ts]; [repeat constructor|].
  change (ascending (t :: t' :: ts))
    with ((t <? t') && ascending (t' :: ts)).
  intros H. apply andb_prop in H. destruct H as [Hlt Hrest].
  apply Z.ltb_lt in Hlt. specialize (IH Hrest).
  constructor; [assumption|].
  apply StronglySorted_inv in IH. destruct IH as [_ Hall].
  constructor; [assumption|].
  eapply Forall_impl; [|exact Hall]. intros a Ha. lia.
Qed.

Lemma dates_increase df : forall i j a b,
  StronglySorted Z.lt (map date df) -> (i < j)%nat ->
  nth_error df i = Some a -> nth_error df j = Some b -> date a < date b.
Proof.
  induction df as [|r df IH]; intros i j a b Hs Hij Ha Hb.
  - destruct i; discriminate.
  - cbn in Hs. apply StronglySorted_inv in Hs. destruct Hs as [Hs Hall].
    destruct j as [|j]; [lia|]. cbn in Hb.
    destruct i as [|i]; cbn in Ha.
    + inv Ha. rewrite Forall_forall in Hall. apply Hall.
      apply in_map. eapply nth_error_In; eassumption.
    + apply (IH i j a b Hs); [lia | assumption | assumption].
Qed.

Lemma timeline_entries_sorted opened lo tr :
  timeline opened lo tr ->
  Forall (fun i => (lo <= i)%nat) (entries tr)
  /\ StronglySorted lt (entries tr).
Proof.
  revert opened lo. induction tr as [|[k|j] tr IH]; intros opened lo; cbn.
  - auto using SSorted_nil.
  - intros (_ & Hk & Htl). destruct (IH _ _ Htl) as [Hall Hs].
    split; [|assumption].
    eapply Forall_impl; [|exact Hall]. cbn. intros; lia.
  - intros (_ & Hj & Htl). destruct (IH _ _ Htl) as [Hall Hs].
    split.
    + constructor; [assumption|].
      eapply Forall_impl; [|exact Hall]. cbn. intros; lia.
    + constructor; [assumption|].
      eapply Forall_impl; [|exact Hall]. cbn. intros; lia.
Qed.

Lemma signals_sorted c df sigs idxs :
  StronglySorted Z.lt (map date df) ->
  Forall2 (signal_at c df) sigs idxs -> StronglySorted lt idxs ->
  StronglySorted earlier sigs.
Proof.
  intros Hd H. induction H as [|s i sigs idxs Hs Hrest IH]; intros Hi.
  - constructor.
  - apply StronglySorted_inv in Hi. destruct Hi as [Hi Hall].
    constructor; [auto|].
    destruct Hs as (r & Hr & ->).
    clear IH Hi. induction Hrest as [|s' i' sigs idxs Hs' _ IH'];
      constructor.
    + destruct Hs' as (r' & Hr' & ->). unfold earlier.
      assert (timestamp (signal_of c r) = date r) as -> by (destruct c; reflexivity).
      assert (timestamp (signal_of c r') = date r') as -> by (destruct c; reflexivity).
      eapply dates_increase; try eassumption.
      apply Forall_inv in Hall. exact Hall.
    + apply IH'. apply Forall_inv_tail in Hall. exact Hall.
Qed.

(** C1: on every strategy whose bar series has strictly ascending
    timestamps, [generate_signals] followed by [calculate_returns] returns
    a series over the index of the bar series in which a bar covered by the
    range of an emitted signal (strictly after its timestamp, up to and
    including the timestamp of the next signal, or to the end for the last
    signal) holds [(close - price) / price] for that signal's price, and a
    bar covered by no range holds 0.0. *)
Theorem calculate_returns_ranges (self : Strategy) :
  ascending (map date (data self)) = true ->
  exists sigs self1 rets,
    generate_signals self = Ok (sigs, self1)
    /\ calculate_returns self1 = Ok (rets, self1)
    /\ index rets = map date (data self)
    /\ length (values rets) = length (data self)
    /\ forall n r v,
         nth_error (data self) n = Some r ->
         nth_error (values rets) n = Some v ->
         (forall k s, nth_error sigs k = Some s ->
                      covers s (nth_error sigs (S k)) (date r) = true ->
                      v = simple_return s r)
         /\ ((forall k s, nth_error sigs k = Some s ->
                          covers s (nth_error sigs (S k)) (date r) = false) ->
             v = 0%float).
Proof.
  intros Hasc. apply ascending_sorted in Hasc.
  destruct (scan_timeline self) as (st & Hrun & Htl & Hsig).
  pose proof (timeline_entries_sorted _ _ _ Htl) as [_ Hent].
  pose proof (signals_sorted _ _ _ _ Hasc Hsig Hent) as Hsorted.
  assert (Hlong : Forall (fun s => type s = "LONG"%string) (Scan.signals st)).
  { clear -Hsig. induction Hsig as [|s i sigs idxs (r & _ & ->) _ IH];
      constructor; [apply signal_of_long | assumption]. }
  set (self1 := set_signals self (Scan.signals st)).
  destruct (for_enumerate_long self1 (Scan.signals st) []
              {| Ret.returns := zeros (data self1); Ret.position := 0;
                 Ret.entry_price := 0%float; Ret.entry_index := None |}
              eq_refl Hlong) as (fin & Hfin & Hidx & Hval).
  exists (Scan.signals st), self1, (Ret.returns fin).
  split; [rewrite generate_signals_scan, Hrun; reflexivity|].
  split; [unfold calculate_returns;
          change (signals self1) with (Scan.signals st);
          cbn [length] in Hfin; rewrite Hfin; reflexivity|].
  cbn in Hidx, Hval. split; [exact Hidx|].
  split; [rewrite Hval, apply_signals_length; apply repeat_length|].
  intros n r v Hr Hv. rewrite Hval in Hv.
  assert (H0 : nth_error (repeat 0%float (length (data self))) n
               = Some 0%float).
  { apply nth_error_repeat. apply nth_error_Some. congruence. }
  rewrite (apply_signals_nth _ _ _ _ _ _ Hr H0) in Hv. inv Hv.
  split.
  - intros k s Hk Hc. now rewrite (writer_unique _ _ _ _ Hsorted Hk Hc).
  - intros Hnone. now rewrite (writer_none _ _ Hnone).
Qed.

Lemma calculate_returns_ranges_witness :
  exists sigs self1 rets,
    generate_signals breakout_strategy = Ok (sigs, self1)
    /\ calculate_returns self1 = Ok (rets, self1)
    /\ index rets = map date (data breakout_strategy)
    /\ length (values rets) = length (data breakout_strategy)
    /\ forall n r v,
         nth_error (data breakout_strategy) n = Some r ->
         nth_error (values rets) n = Some v ->
         (forall k s, nth_error sigs k = Some s ->
                      covers s (nth_error sigs (S k)) (date r) = true ->
                      v = simple_return s r)
         /\ ((forall k s, nth_error sigs k = Some s ->
                          covers s (nth_error sigs (S k)) (date r) = false) ->
             v = 0%float).
Proof.
  apply (calculate_returns_ranges breakout_strategy). reflexivity.
Defined.

(** * Stop and target are never consulted *)

Lemma same_but_stops_refl s : same_but_stops s s.
Proof. repeat split. Qed.

Lemma stops_replaced_length st st' :
  stops_replaced st st' ->
  length (Scan.signals st) = length (Scan.signals st').
Proof. intros (_ & _ & _ & H). eapply Forall2_length; eassumption. Qed.

Lemma exit_fires_stops c df i st st' :
  stops_replaced st st' -> exit_fires c df i st = exit_fires c df i st'.
Proof.
  destruct st as [sg po ep ed], st' as [sg' po' ep' ed'].
  unfold stops_replaced. cbn. intros (<- & <- & <- & _).
  unfold exit_fires, exit_guard, ACC_exit_conditions,
    AdaniEnterprises_exit_conditions, AdaniPorts_exit_conditions, held_days.
  destruct c; reflexivity.
Qed.

Lemma body_stops c df i st st' :
  stops_replaced st st' ->
  result_rel stops_replaced (body c df i st) (body c df i st').
Proof.
  destruct st as [sg po ep ed], st' as [sg' po' ep' ed'].
  unfold stops_replaced. cbn. intros (<- & <- & <- & HF).
  destruct c; cbn [body];
    unfold ACC_body, AdaniEnterprises_body, AdaniPower_body, AdaniPorts_body,
      ACC_entry, AdaniEnterprises_entry, AdaniPorts_entry,
      ACC_exit_conditions, AdaniEnterprises_exit_conditions,
      AdaniPorts_exit_conditions, held_days, bind, iloc;
    cbn [position_open entry_price entry_date].
  all: repeat (case_match; cbn [negb andb result_rel]); try reflexivity.
  all: unfold stops_replaced, close_position, open_position; cbn.
  all: repeat split; try assumption.
  all: apply Forall2_app; [assumption|].
  all: constructor; [apply same_but_stops_refl | constructor].
Qed.

Lemma observe_stops c df i st st' st1 st1' :
  stops_replaced st st' -> stops_replaced st1 st1' ->
  observe c df i st st1 = observe c df i st' st1'.
Proof.
  intros H H1. unfold observe, emitted.
  rewrite (exit_fires_stops c df i st st' H).
  rewrite (stops_replaced_length _ _ H), (stops_replaced_length _ _ H1).
  reflexivity.
Qed.

(** C4: in every strategy, on every bar series and from every point of
    the scan, replacing the [stop_loss] and [take_profit] recorded on the
    signals emitted so far by arbitrary values changes neither the
    transitions of the remaining scan nor its outcome: the same exception,
    or the same position state and the same signals up to stop and target
    (in particular the same timestamps). *)
Theorem stops_are_never_consulted (c : StrategyClass) (df : DataFrame)
        (idxs : list nat) (st st' : locals) :
  stops_replaced st st' ->
  transitions c df idxs st = transitions c df idxs st'
  /\ result_rel stops_replaced (for_each (body c df) idxs st)
                (for_each (body c df) idxs st')
  /\ result_rel (fun a b => map timestamp (Scan.signals a)
                            = map timestamp (Scan.signals b))
                (for_each (body c df) idxs st)
                (for_each (body c df) idxs st').
Proof.
  revert st st'. induction idxs as [|i idxs IH]; intros st st' H; cbn.
  - repeat split; try apply H.
    destruct H as (_ & _ & _ & HF). clear -HF.
    induction HF as [|a b l l' (Ht & _) _ IH]; cbn; congruence.
  - pose proof (body_stops c df i st st' H) as Hb.
    destruct (body c df i st) as [st1|e], (body c df i st') as [st1'|e'];
      cbn in Hb |- *; try contradiction; [|auto].
    destruct (IH st1 st1' Hb) as (Ht & Hr & Hm).
    rewrite Ht, (observe_stops c df i st st' st1 st1' H Hb). auto.
Qed.

Lemma stops_are_never_consulted_witness :
  transitions AdaniEnterprisesStrategy breakout_frame (range 21 25)
              (breakout_state (11 * 0.97) (11 * 1.12))
  = transitions AdaniEnterprisesStrategy breakout_frame (range 21 25)
                (breakout_state 0 1000)
  /\ result_rel stops_replaced
       (for_each (body AdaniEnterprisesStrategy breakout_frame)
                 (range 21 25) (breakout_state (11 * 0.97) (11 * 1.12)))
       (for_each (body AdaniEnterprisesStrategy breakout_frame)
                 (range 21 25) (breakout_state 0 1000))
  /\ result_rel (fun a b => map timestamp (Scan.signals a)
                            = map timestamp (Scan.signals b))
       (for_each (body AdaniEnterprisesStrategy breakout_frame)
                 (range 21 25) (breakout_state (11 * 0.97) (11 * 1.12)))
       (for_each (body AdaniEnterprisesStrategy breakout_frame)
                 (range 21 25) (breakout_state 0 1000)).
Proof.
  apply (stops_are_never_consulted AdaniEnterprisesStrategy breakout_frame
           (range 21 25) (breakout_state (11 * 0.97) (11 * 1.12))
           (breakout_state 0 1000)).
  unfold stops_replaced, same_but_stops. cbn.
  repeat split. repeat constructor.
Defined.

(** * Scenarios at a given bar *)

Lemma range_split lo i hi :
  (lo <= i < hi)%nat -> range lo hi = range lo i ++ i :: range (S i) hi.
Proof.
  intros H. unfold range.
  replace (hi - lo)%nat with ((i - lo) + S (hi - S i))%nat by lia.
  rewrite seq_app. cbn. replace (lo + (i - lo))%nat with i by lia.
  reflexivity.
Qed.

Lemma transitions_app c df l1 l2 st :
  transitions c df (l1 ++ l2) st
  = transitions c df l1 st
    ++ match for_each (body c df) l1 st with
       | Ok st1 => transitions c df l2 st1
       | Raise _ => []
       end.
Proof.
  revert st. induction l1 as [|i l1 IH]; intros st; cbn; [reflexivity|].
  destruct (body c df i st) as [st1|]; cbn; [|reflexivity].
  now rewrite IH, app_assoc.
Qed.

Lemma observe_bar c df i st st' t :
  In t (observe c df i st st') -> t = Exit i \/ t = Entry i.
Proof.
  unfold observe. intros H. apply in_app_or in H.
  destruct H as [H|H];
    [destruct (exit_fires _ _ _ _) | destruct (emitted _ _)];
    cbn in H; intuition.
Qed.

Lemma transitions_bars c df idxs st t :
  In t (transitions c df idxs st) ->
  exists i, In i idxs /\ (t = Exit i \/ t = Entry i).
Proof.
  revert st. induction idxs as [|k idxs IH]; intros st; cbn; [intros []|].
  destruct (body c df k st) as [st1|]; [|intros []].
  intros H. apply in_app_or in H. destruct H as [H|H].
  - exists k. split; [auto|]. eapply observe_bar; eassumption.
  - destruct (IH _ H) as (i & Hi & Ht). eauto.
Qed.

(** What the scan records at bar [i] is what the iteration of bar [i]
    records on the state the earlier bars left; the signals it holds then
    stay in the list the scan returns. *)
Lemma scan_at_bar self i st st' :
  (warmup (class self) <= i < length (data self))%nat ->
  scan_before self i = Ok st ->
  body (class self) (data self) i st = Ok st' ->
  scan_before self (S i) = Ok st'
  /\ (forall t, t = Exit i \/ t = Entry i ->
         (In t (scan_transitions self)
          <-> In t (observe (class self) (data self) i st st')))
  /\ exists fin new,
       scan self = Ok fin /\ Scan.signals fin = Scan.signals st' ++ new.
Proof.
  intros Hi Hpre Hb. split.
  { unfold scan_before in *.
    rewrite (range_split _ i (S i)) by lia.
    rewrite for_each_app, Hpre. unfold range. rewrite Nat.sub_diag.
    cbn. rewrite Hb. reflexivity. }
  unfold scan_before in Hpre.
  unfold scan_transitions, scan. rewrite (range_split _ i _ Hi).
  rewrite transitions_app, for_each_app, Hpre.
  cbn [bind for_each transitions]. rewrite Hb. cbn [bind].
  split.
  - intros t Ht. split.
    + intros H. apply in_app_or in H. destruct H as [H|H].
      { apply transitions_bars in H. destruct H as (k & Hk & Hkt).
        pose proof (range_bounds (warmup (class self)) i) as Hr.
        rewrite Forall_forall in Hr. specialize (Hr _ Hk).
        destruct Ht as [->| ->], Hkt as [Hkt|Hkt]; inv Hkt; lia. }
      apply in_app_or in H. destruct H as [H|H]; [exact H|].
      apply transitions_bars in H. destruct H as (k & Hk & Hkt).
      pose proof (range_bounds (S i) (length (data self))) as Hr.
      rewrite Forall_forall in Hr. specialize (Hr _ Hk).
      destruct Ht as [->| ->], Hkt as [Hkt|Hkt]; inv Hkt; lia.
    + intros He. apply in_or_app. right. apply in_or_app. left. exact He.
  - destruct (scan_total self) as (fin & Hfin & _).
    unfold scan in Hfin. rewrite (range_split _ i _ Hi) in Hfin.
    rewrite for_each_app, Hpre in Hfin. cbn in Hfin. rewrite Hb in Hfin.
    cbn in Hfin. exists fin.
    destruct (for_each_timeline _ _ _ (S i) _ _ (range_sorted _ _)
                (Forall_impl _ (fun k H => proj1 H) (range_bounds _ _)) Hfin)
      as (_ & new & Hnew & _).
    exists new. auto.
Qed.

(** The first bar of the scan is reached with no position open. *)
Lemma scan_before_warmup self :
  scan_before self (warmup (class self)) = Ok Scan.init.
Proof. unfold scan_before, range. now rewrite Nat.sub_diag. Qed.

(** ** The 20-day breakout *)

(** C5: in [AdaniEnterprisesStrategy], when the scan reaches bar [i]
    (the 21st bar or any later one) with no position open and the close of
    bar [i] exceeds the 20-bar rolling high of the bar before it,
    [generate_signals] records an entry at bar [i] and returns a list that
    holds the LONG signal stamped with bar [i], priced at its close, with
    stop 0.97 x close and target 1.12 x close. *)
Theorem breakout_emits_long (self : Strategy) (i : nat) (r prev : Row)
        (st : locals) :
  class self = AdaniEnterprisesStrategy ->
  (20 <= i)%nat ->
  nth_error (data self) i = Some r ->
  nth_error (data self) (i - 1) = Some prev ->
  scan_before self i = Ok st ->
  position_open st = false ->
  (close r >? High_20 prev)%float = true ->
  exists sigs self',
    generate_signals self = Ok (sigs, self')
    /\ In (Entry i) (scan_transitions self)
    /\ In {| timestamp := date r;
             type := "LONG";
             price := close r;
             stop_loss := (close r * 0.97)%float;
             take_profit := (close r * 1.12)%float;
             reason := "20-day high breakout" |} sigs.
Proof.
  intros Hc Hi Hr Hp Hpre Hflat Hbreak.
  assert (Hb : body (class self) (data self) i st
               = Ok (open_position st (AdaniEnterprises_signal r)
                                   (close r) (date r))).
  { rewrite Hc. cbn [body].
    unfold AdaniEnterprises_body, AdaniEnterprises_entry, iloc, bind.
    rewrite Hr, Hflat. cbn [negb]. rewrite Hp, Hbreak. reflexivity. }
  assert (Hin : (warmup (class self) <= i < length (data self))%nat).
  { rewrite Hc. cbn. split; [assumption|].
    apply nth_error_Some. congruence. }
  destruct (scan_at_bar self i st _ Hin Hpre Hb)
    as (_ & Htr & fin & new & Hfin & Hsig).
  exists (Scan.signals fin), (set_signals self (Scan.signals fin)).
  rewrite generate_signals_scan, Hfin. split; [reflexivity|]. split.
  - apply Htr; [auto|]. unfold observe, emitted.
    apply in_or_app. right. cbn [open_position Scan.signals].
    rewrite length_app.
    replace (_ <? _)%nat with true
      by (symmetry; apply Nat.ltb_lt; cbn; lia).
    left. reflexivity.
  - rewrite Hsig. cbn [open_position Scan.signals].
    apply in_or_app. left. apply in_or_app. right. left. reflexivity.
Qed.

Lemma breakout_emits_long_witness :
  exists sigs self',
    generate_signals breakout_strategy = Ok (sigs, self')
    /\ In (Entry 20) (scan_transitions breakout_strategy)
    /\ In {| timestamp := bar_time 20;
             type := "LONG";
             price := 11%float;
             stop_loss := (11 * 0.97)%float;
             take_profit := (11 * 1.12)%float;
             reason := "20-day high breakout" |} sigs.
Proof.
  apply (breakout_emits_long breakout_strategy 20 (breakout_row 20)
           (breakout_row 19) Scan.init);
    first [reflexivity | lia].
Defined.

(** ** The 50/200 cross *)

Lemma range_app lo m hi :
  (lo <= m <= hi)%nat -> range lo hi = range lo m ++ range m hi.
Proof.
  intros H. unfold range.
  replace (hi - lo)%nat with ((m - lo) + (hi - m))%nat by lia.
  rewrite seq_app. replace (lo + (m - lo))%nat with m by lia. reflexivity.
Qed.






(** Facts on float comparisons that relate the death-cross test to the
    averages being defined: above implies at or above, and between defined
    numbers not below means at or above. *)

Lemma gtb_geb (x y : float) :
  (x >? y)%float = true -> (x >=? y)%float = true.
Proof.
  unfold gtb, geb. rewrite ltb_spec, leb_spec. unfold SFltb, SFleb.
  destruct (SFcompare _ _) as [[]|]; congruence.
Qed.

Lemma SFcompare_flip a b :
  SFcompare b a = option_map CompOpp (SFcompare a b).
Proof.
  destruct a as [sa|sa| |sa ma ea], b as [sb|sb| |sb mb eb]; cbn;
    try reflexivity;
    try (destruct sa; reflexivity); try (destruct sb; reflexivity);
    try (destruct sa, sb; reflexivity).
  destruct sa, sb; try reflexivity; f_equal;
    rewrite (Z.compare_antisym ea eb); destruct (ea ?= eb)%Z; cbn;
    try reflexivity;
    change (Pos.compare_cont Eq mb ma) with (Pos.compare mb ma);
    change (Pos.compare_cont Eq ma mb) with (Pos.compare ma mb);
    rewrite (Pos.compare_antisym ma mb); destruct (ma ?= mb)%positive;
    reflexivity.
Qed.

Lemma defined_compare x :
  is_nan x = false -> Prim2SF x <> S754_nan.
Proof.
  unfold is_nan. intros H. apply negb_false_iff in H.
  rewrite FloatAxioms.eqb_spec in H. unfold SFeqb in H.
  intros Hn. rewrite Hn in H. discriminate.
Qed.

Lemma defined_not_below x y :
  is_nan x = false -> is_nan y = false ->
  (x <? y)%float = false -> (x >=? y)%float = true.
Proof.
  intros Hx Hy. apply defined_compare in Hx, Hy. unfold geb.
  rewrite ltb_spec, leb_spec. unfold SFltb, SFleb.
  rewrite (SFcompare_flip (Prim2SF x) (Prim2SF y)).
  destruct (Prim2SF x) as [sa|sa| |sa ma ea] eqn:Ex; try congruence;
    destruct (Prim2SF y) as [sb|sb| |sb mb eb] eqn:Ey; try congruence.
  all: destruct (SFcompare _ _) as [[]|] eqn:Hc; cbn; try congruence.
  all: cbn in Hc; try discriminate.
  all: destruct sa; try discriminate; destruct sb; discriminate.
Qed.

(** ** The volatility band of [ACCStrategy] *)

(** C7 (amended): in [ACCStrategy], at a bar [i >= 200] that the scan
    reaches with no position open and at which the trend, momentum,
    volume and pattern predicates hold, an entry fires exactly when ATR
    lies strictly between 0.7 x ATR_MA and 1.1 x ATR_MA. *)
Theorem ACC_entry_volatility_band (self : Strategy) (i : nat) (r : Row)
        (st : locals) :
  class self = ACCStrategy ->
  (200 <= i)%nat ->
  nth_error (data self) i = Some r ->
  scan_before self i = Ok st ->
  position_open st = false ->
  ACC_trend_ok r = true ->
  ACC_momentum_ok r = true ->
  ACC_volume_ok r = true ->
  ACC_pattern_ok r = true ->
  In (Entry i) (scan_transitions self)
  <-> (ATR_MA r * 0.7 <? ATR r)%float = true
      /\ (ATR r <? ATR_MA r * 1.1)%float = true.
Proof.
  intros Hc Hi Hr Hpre Hflat Ht Hm Hv Hp.
  assert (Hb : body (class self) (data self) i st = Ok (ACC_entry r st)).
  { rewrite Hc. cbn [body]. unfold ACC_body, iloc, bind.
    rewrite Hr, Hflat. reflexivity. }
  assert (Hin : (warmup (class self) <= i < length (data self))%nat).
  { rewrite Hc. cbn. split; [assumption|].
    apply nth_error_Some. congruence. }
  destruct (scan_at_bar self i st _ Hin Hpre Hb) as (_ & Htr & _).
  rewrite (Htr (Entry i)) by auto.
  unfold observe, exit_fires, emitted, ACC_entry. rewrite Hflat.
  cbn [andb negb app]. unfold all, ACC_entry_conditions.
  cbn [forallb]. rewrite Ht, Hm, Hv, Hp. cbn [andb]. rewrite andb_true_r.
  unfold ACC_volatility_ok, gtb.
  destruct (ATR r <? ATR_MA r * 1.1)%float,
    (ATR_MA r * 0.7 <? ATR r)%float; cbn [andb].
  - cbn [open_position Scan.signals]. rewrite length_app.
    replace (_ <? _)%nat with true
      by (symmetry; apply Nat.ltb_lt; cbn; lia).
    cbn. intuition.
  - rewrite Nat.ltb_irrefl. cbn. intuition discriminate.
  - rewrite Nat.ltb_irrefl. cbn. intuition discriminate.
  - rewrite Nat.ltb_irrefl. cbn. intuition discriminate.
Qed.

Lemma ACC_entry_volatility_band_witness :
  In (Entry 200) (scan_transitions (acc_strategy 1%float))
  <-> (ATR_MA (acc_row 1%float 200) * 0.7 <? ATR (acc_row 1%float 200))%float
      = true
      /\ (ATR (acc_row 1%float 200) <? ATR_MA (acc_row 1%float 200) * 1.1)%float
         = true.
Proof.
  apply (ACC_entry_volatility_band (acc_strategy 1%float) 200
           (acc_row 1%float 200) Scan.init);
    first [reflexivity | lia].
Defined.

(** C7 as stated fails at both ends of the interval: with every other
    entry predicate holding at bar 200 and no position open, ATR equal to
    1.1 x ATR_MA, and likewise ATR equal to 0.7 x ATR_MA, lies in the
    closed interval and yet no entry fires and no signal is emitted. *)
Lemma ACC_band_ends_do_not_enter :
  (ATR (acc_row 1.1%float 200) = (ATR_MA (acc_row 1.1%float 200) * 1.1)%float
   /\ all [ACC_trend_ok (acc_row 1.1%float 200);
           ACC_momentum_ok (acc_row 1.1%float 200);
           ACC_volume_ok (acc_row 1.1%float 200);
           ACC_pattern_ok (acc_row 1.1%float 200)] = true
   /\ nth_error (data (acc_strategy 1.1%float)) 200
      = Some (acc_row 1.1%float 200)
   /\ scan_before (acc_strategy 1.1%float) 200 = Ok Scan.init
   /\ ~ In (Entry 200) (scan_transitions (acc_strategy 1.1%float))
   /\ generate_signals (acc_strategy 1.1%float)
      = Ok ([], acc_strategy 1.1%float))
  /\ (ATR (acc_row 0.7%float 200) = (ATR_MA (acc_row 0.7%float 200) * 0.7)%float
      /\ all [ACC_trend_ok (acc_row 0.7%float 200);
              ACC_momentum_ok (acc_row 0.7%float 200);
              ACC_volume_ok (acc_row 0.7%float 200);
              ACC_pattern_ok (acc_row 0.7%float 200)] = true
      /\ nth_error (data (acc_strategy 0.7%float)) 200
         = Some (acc_row 0.7%float 200)
      /\ scan_before (acc_strategy 0.7%float) 200 = Ok Scan.init
      /\ ~ In (Entry 200) (scan_transitions (acc_strategy 0.7%float))
      /\ generate_signals (acc_strategy 0.7%float)
         = Ok ([], acc_strategy 0.7%float)).
Proof.
  repeat split; try (vm_compute; reflexivity); vm_compute; intros [].
Qed.

(** * Further properties of the scan *)

Lemma entries_in tr i : In i (entries tr) <-> In (Entry i) tr.
Proof.
  induction tr as [|[k|j] tr IH]; cbn.
  - tauto.
  - rewrite IH. split; [auto|]. intros [H|H]; [discriminate | assumption].
  - rewrite IH. split; (intros [H|H]; [left; congruence | right; exact H]).
Qed.

Lemma scan_entries_bounds self :
  Forall (fun i => (warmup (class self) <= i < length (data self))%nat)
         (entries (scan_transitions self)).
Proof.
  apply Forall_forall. intros i Hi. apply entries_in in Hi.
  apply transitions_bars in Hi. destruct Hi as (k & Hk & Hkt).
  pose proof (range_bounds (warmup (class self)) (length (data self))) as Hr.
  rewrite Forall_forall in Hr. specialize (Hr _ Hk).
  destruct Hkt as [Hkt|Hkt]; inv Hkt. exact Hr.
Qed.

Lemma signal_of_stamp c r :
  timestamp (signal_of c r) = date r /\ price (signal_of c r) = close r.
Proof. destruct c; split; reflexivity. Qed.

(** Every signal [generate_signals] returns is stamped with the index
    label of a scanned bar of the frame (position at or after the warm-up
    bound) and priced at the close of that bar. *)
Theorem signals_stamped_on_scanned_bars (self : Strategy) :
  exists sigs self',
    generate_signals self = Ok (sigs, self')
    /\ Forall (stamped_on (data self) (warmup (class self))) sigs.
Proof.
  destruct (scan_timeline self) as (st & Hrun & _ & Hsig).
  exists (Scan.signals st), (set_signals self (Scan.signals st)).
  rewrite generate_signals_scan, Hrun. split; [reflexivity|].
  pose proof (scan_entries_bounds self) as Hb.
  induction Hsig as [|s i sigs idxs (r & Hr & ->) _ IH]; constructor.
  - exists i, r. apply Forall_inv in Hb.
    destruct (signal_of_stamp (class self) r). repeat split; auto. lia.
  - apply IH. eapply Forall_inv_tail; eassumption.
Qed.

(** On a frame with strictly ascending timestamps the signals returned by
    [generate_signals] carry strictly increasing timestamps. *)
Theorem signals_in_time_order (self : Strategy) :
  ascending (map date (data self)) = true ->
  exists sigs self',
    generate_signals self = Ok (sigs, self')
    /\ StronglySorted earlier sigs.
Proof.
  intros Hasc. apply ascending_sorted in Hasc.
  destruct (scan_timeline self) as (st & Hrun & Htl & Hsig).
  exists (Scan.signals st), (set_signals self (Scan.signals st)).
  rewrite generate_signals_scan, Hrun. split; [reflexivity|].
  pose proof (timeline_entries_sorted _ _ _ Htl) as [_ Hent].
  eapply signals_sorted; eassumption.
Qed.

Lemma signals_in_time_order_witness :
  exists sigs self',
    generate_signals breakout_strategy = Ok (sigs, self')
    /\ StronglySorted earlier sigs.
Proof.
  apply (signals_in_time_order breakout_strategy). reflexivity.
Defined.

Lemma spaced_count l : forall lo hi,
  StronglySorted lt l -> spaced l ->
  Forall (fun i => (lo <= i < hi)%nat) l ->
  l <> [] -> (2 * length l + lo <= hi + 1)%nat.
Proof.
  induction l as [|i l IH]; intros lo hi Hs Hsp Hb Hne; [congruence|].
  apply Forall_cons_iff in Hb. destruct Hb as [Hi Hb].
  apply StronglySorted_inv in Hs. destruct Hs as [Hs Hgt].
  destruct l as [|j l]; [cbn; lia|].
  destruct Hsp as [Hij Hsp].
  assert (Hb' : Forall (fun k => (i + 2 <= k < hi)%nat) (j :: l)).
  { apply StronglySorted_inv in Hs. destruct Hs as [_ Hgj].
    apply Forall_cons_iff in Hb. destruct Hb as [Hj Hb].
    constructor; [lia|].
    rewrite Forall_forall in *. intros k Hk.
    specialize (Hgj k Hk). specialize (Hb k Hk). lia. }
  specialize (IH (i + 2)%nat hi Hs Hsp Hb' ltac:(discriminate)).
  cbn [length] in *. lia.
Qed.

(** [generate_signals] returns at most one signal for every two scanned
    bars: twice the number of signals is at most the number of scanned
    bars plus one. *)
Theorem signal_count_bound (self : Strategy) :
  exists sigs self',
    generate_signals self = Ok (sigs, self')
    /\ (2 * length sigs
        <= length (data self) - warmup (class self) + 1)%nat.
Proof.
  destruct (scan_timeline self) as (st & Hrun & Htl & Hsig).
  exists (Scan.signals st), (set_signals self (Scan.signals st)).
  rewrite generate_signals_scan, Hrun. split; [reflexivity|].
  rewrite (Forall2_length Hsig).
  pose proof (timeline_entries_sorted _ _ _ Htl) as [_ Hent].
  pose proof (timeline_spaced _ _ _ Htl) as Hsp.
  pose proof (scan_entries_bounds self) as Hb.
  destruct (entries (scan_transitions self)) as [|i l] eqn:He; [cbn; lia|].
  pose proof (spaced_count (i :: l) _ _ Hent Hsp Hb ltac:(discriminate)).
  lia.
Qed.

Lemma for_each_invariant {St : Type} (f : nat -> St -> result St)
      (P : St -> Prop) idxs :
  (forall i st st', f i st = Ok st' -> P st -> P st') ->
  forall st st', for_each f idxs st = Ok st' -> P st -> P st'.
Proof.
  intros Hf. induction idxs as [|i idxs IH]; intros st st' Hrun Hst;
    cbn in Hrun.
  - inv Hrun. assumption.
  - destruct (f i st) as [st1|] eqn:H1; [|discriminate]. cbn in Hrun.
    eapply IH; [eassumption|]. eapply Hf; eassumption.
Qed.

Lemma scan_before_total self i :
  (i <= length (data self))%nat ->
  exists st, scan_before self i = Ok st /\ well_formed st.
Proof.
  intros Hi. apply for_each_total; [|apply well_formed_init].
  apply range_in_frame. assumption.
Qed.

Lemma step_mirrors c df i st st' :
  step c df i st st' -> mirrors_last_signal st -> mirrors_last_signal st'.
Proof.
  intros Hs Hm. inv Hs; try assumption; unfold mirrors_last_signal; cbn.
  - auto.
  - exists (Scan.signals st), (signal_of c r).
    destruct (signal_of_stamp c r) as [-> ->]. auto.
Qed.

(** At every point of the scan the entry price and entry date held by the
    loop are those of the signal emitted last while a position is open, and
    are 0 and [None] while none is: the exits are measured against the
    signal emitted last. *)
Theorem entry_state_mirrors_last_signal (self : Strategy) (i : nat) :
  (i <= length (data self))%nat ->
  exists st, scan_before self i = Ok st /\ mirrors_last_signal st.
Proof.
  intros Hi. destruct (scan_before_total self i Hi) as (st & Hrun & _).
  exists st. split; [assumption|].
  unfold scan_before in Hrun.
  eapply (for_each_invariant _ mirrors_last_signal); [|exact Hrun|].
  - intros k st1 st2 Hb. apply step_mirrors with (c := class self)
      (df := data self) (i := k). apply body_step. exact Hb.
  - unfold mirrors_last_signal. cbn. auto.
Qed.

Lemma entry_state_mirrors_last_signal_witness :
  exists st, scan_before breakout_strategy 22 = Ok st
             /\ mirrors_last_signal st.
Proof.
  apply (entry_state_mirrors_last_signal breakout_strategy 22). cbn. lia.
Defined.

Lemma any_false_last (bs : list bool) (b : bool) :
  any (bs ++ [b]) = false -> b = false.
Proof.
  unfold any. rewrite existsb_app. cbn. intros H.
  apply orb_false_elim in H. destruct H as [_ H].
  now rewrite orb_false_r in H.
Qed.

Lemma days_same t : days t t = 0.
Proof. unfold days. now rewrite Z.sub_diag. Qed.

Lemma body_hold_limit c df i r st st' limit :
  body c df i st = Ok st' -> nth_error df i = Some r ->
  hold_limit c = Some limit -> position_open st' = true ->
  exists d, entry_date st' = Some d /\ days (date r) d < limit.
Proof.
  intros Hb Hr Hl Ho.
  destruct c; cbn in Hl; inv Hl; cbn [body] in Hb;
    unfold ACC_body, AdaniEnterprises_body, AdaniPorts_body,
      ACC_entry, AdaniEnterprises_entry, AdaniPorts_entry,
      ACC_exit_conditions, AdaniEnterprises_exit_conditions,
      AdaniPorts_exit_conditions, held_days, bind, iloc in Hb;
    rewrite Hr in Hb.
  all: destruct (position_open st) eqn:Hp; cbn [negb] in Hb.
  all: repeat (case_match; try discriminate); inv Hb;
    cbn [open_position close_position position_open entry_date] in *;
    try congruence.
  all: try (eexists; split; [reflexivity|]; rewrite days_same; lia).
  all: eexists; split; [eassumption|].
  - match goal with H : any _ = false |- _ =>
      apply (any_false_last [_; _; _; _; _; _]) in H;
      rewrite Z.geb_leb in H; apply Z.leb_gt in H
    end. lia.
  - match goal with H : any _ = false |- _ =>
      unfold any in H; cbn in H; apply orb_false_elim in H;
      destruct H as [H _]; rewrite Z.geb_leb in H; apply Z.leb_gt in H
    end. lia.
  - match goal with H : any _ = false |- _ =>
      unfold any in H; cbn in H; apply orb_false_elim in H;
      destruct H as [H _]; rewrite Z.geb_leb in H; apply Z.leb_gt in H
    end. lia.
Qed.

(** In the classes with a holding-period exit (8 calendar days for ACC, 10
    for Adani Enterprises and Adani Ports), a position that is open once
    bar [i] has been scanned was entered fewer than that many days before
    bar [i]. *)
Theorem holding_period_is_bounded (self : Strategy) (i : nat) (r : Row)
        (limit : Z) :
  hold_limit (class self) = Some limit ->
  nth_error (data self) i = Some r ->
  exists st,
    scan_before self (S i) = Ok st
    /\ (position_open st = true ->
        exists d, entry_date st = Some d /\ days (date r) d < limit).
Proof.
  intros Hl Hr.
  assert (Hlen : (i < length (data self))%nat)
    by (apply nth_error_Some; congruence).
  destruct (scan_before_total self (S i) Hlen) as (st & Hrun & _).
  exists st. split; [assumption|]. intros Ho.
  destruct (Nat.le_gt_cases (warmup (class self)) i) as [Hw|Hw].
  - destruct (scan_before_total self i) as (st0 & Hrun0 & _); [lia|].
    unfold scan_before in *.
    rewrite (range_split _ i (S i)) in Hrun by lia.
    rewrite for_each_app, Hrun0 in Hrun. unfold range in Hrun.
    rewrite Nat.sub_diag in Hrun. cbn in Hrun.
    destruct (body (class self) (data self) i st0) as [st1|] eqn:Hb;
      [|discriminate].
    cbn in Hrun. inv Hrun. eapply body_hold_limit; eassumption.
  - unfold scan_before, range in Hrun.
    replace (S i - warmup (class self))%nat with 0%nat in Hrun by lia.
    cbn in Hrun. inv Hrun. discriminate.
Qed.

Lemma holding_period_is_bounded_witness :
  exists st,
    scan_before breakout_strategy 22 = Ok st
    /\ (position_open st = true ->
        exists d, entry_date st = Some d
                  /\ days (date (breakout_row 21)) d < 10).
Proof.
  apply (holding_period_is_bounded breakout_strategy 21 (breakout_row 21) 10);
    reflexivity.
Defined.

(** Every signal [generate_signals] returns carries the stop and target of
    its class, computed from its own price (and, for ACC, from the ATR of
    the bar it is stamped on): 0.97 and 1.12 times the price for Adani
    Enterprises, 0.94 and 1.12 for Adani Power, 0.95 and 1.12 for Adani
    Ports, price - 1.2 ATR and price + 2 ATR for ACC. *)
Theorem signals_carry_class_stops (self : Strategy) :
  exists sigs self',
    generate_signals self = Ok (sigs, self')
    /\ Forall (fun s =>
                 exists r, In r (data self) /\ timestamp s = date r
                           /\ (stop_loss s, take_profit s)
                              = stop_and_target (class self) (price s)
                                                (ATR r)) sigs.
Proof.
  destruct (scan_timeline self) as (st & Hrun & _ & Hsig).
  exists (Scan.signals st), (set_signals self (Scan.signals st)).
  rewrite generate_signals_scan, Hrun. split; [reflexivity|].
  induction Hsig as [|s i sigs idxs (r & Hr & ->) _ IH]; constructor;
    [|assumption].
  exists r. split; [eapply nth_error_In; eassumption|].
  destruct (class self); split; reflexivity.
Qed.

(** * Further properties of [calculate_returns] *)

Lemma setitem_length vs mask vals :
  length (setitem vs mask vals) = length vs.
Proof.
  revert mask vals. induction vs as [|v vs IH]; intros [|b mask] vals; cbn;
    try reflexivity.
  destruct b; [destruct vals|]; cbn; now rewrite IH.
Qed.

Lemma returns_body_shape self i signal st st' :
  returns_body self i signal st = Ok st' ->
  index (Ret.returns st') = index (Ret.returns st)
  /\ length (values (Ret.returns st')) = length (values (Ret.returns st)).
Proof.
  unfold returns_body.
  set (st1 := if String.eqb (type signal) "LONG" then _ else st).
  assert (H1 : Ret.returns st1 = Ret.returns st)
    by (subst st1; destruct (String.eqb _ _); reflexivity).
  clearbody st1. rewrite <- H1. unfold bind.
  repeat (case_match; try discriminate); intros H; inv H; cbn;
    rewrite ?setitem_length; auto.
Qed.

Lemma for_enumerate_invariant {St A : Type} (f : nat -> A -> St -> result St)
      (P : St -> Prop) xs :
  (forall i x st st', f i x st = Ok st' -> P st -> P st') ->
  forall i st st', for_enumerate f i xs st = Ok st' -> P st -> P st'.
Proof.
  intros Hf. induction xs as [|x xs IH]; intros i st st' Hrun Hst;
    cbn in Hrun.
  - inv Hrun. assumption.
  - destruct (f i x st) as [st1|] eqn:H1; [|discriminate]. cbn in Hrun.
    eapply IH; [eassumption|]. eapply Hf; eassumption.
Qed.

(** Whatever list [self.signals] holds (signals of any type, in any order,
    stamped anywhere), [calculate_returns] does not raise, leaves the
    instance as it is and returns a series over the index of the frame
    with one value per bar. *)
Theorem calculate_returns_keeps_index (self : Strategy) :
  exists rets,
    calculate_returns self = Ok (rets, self)
    /\ index rets = map date (data self)
    /\ length (values rets) = length (data self).
Proof.
  destruct (calculate_returns_total self) as [rets Hret].
  exists rets. split; [assumption|].
  unfold calculate_returns in Hret.
  destruct (for_enumerate _ _ _ _) as [st|] eqn:Hrun; [|discriminate].
  cbn in Hret. inv Hret.
  apply (for_enumerate_invariant _
           (fun st => index (Ret.returns st) = map date (data self)
                      /\ length (values (Ret.returns st))
                         = length (data self))) in Hrun.
  - exact Hrun.
  - intros i x st1 st2 Hb [Hi Hl]. apply returns_body_shape in Hb.
    destruct Hb as [-> ->]. auto.
  - cbn. split; [reflexivity | apply repeat_length].
Qed.



(** * Undefined indicator values *)

Lemma SFcompare_refl a : a <> S754_nan -> SFcompare a a = Some Eq.
Proof.
  destruct a as [s|s| |s m e]; cbn; try congruence; intros _.
  - destruct s; reflexivity.
  - destruct s; rewrite Z.compare_refl;
      change (Pos.compare_cont Eq m m) with (Pos.compare m m);
      now rewrite Pos.compare_refl.
Qed.

Lemma is_nan_spec x : is_nan x = true <-> Prim2SF x = S754_nan.
Proof.
  unfold is_nan. rewrite negb_true_iff, FloatAxioms.eqb_spec. unfold SFeqb.
  split.
  - intros H. destruct (Prim2SF x) as [s|s| |s m e] eqn:E; try reflexivity;
      rewrite SFcompare_refl in H by discriminate; discriminate.
  - intros ->. reflexivity.
Qed.

Lemma SFcompare_nan_l a : SFcompare S754_nan a = None.
Proof. destruct a; reflexivity. Qed.

Lemma SFcompare_nan_r a : SFcompare a S754_nan = None.
Proof. destruct a; reflexivity. Qed.

(** A comparison that holds has two defined operands. *)
Lemma ltb_defined x y :
  (x <? y)%float = true -> is_nan x = false /\ is_nan y = false.
Proof.
  rewrite ltb_spec. unfold SFltb. intros H.
  split; apply not_true_is_false; intros Hn; apply is_nan_spec in Hn;
    rewrite Hn, ?SFcompare_nan_l, ?SFcompare_nan_r in H; discriminate.
Qed.

Lemma leb_defined x y :
  (x <=? y)%float = true -> is_nan x = false /\ is_nan y = false.
Proof.
  rewrite leb_spec. unfold SFleb. intros H.
  split; apply not_true_is_false; intros Hn; apply is_nan_spec in Hn;
    rewrite Hn, ?SFcompare_nan_l, ?SFcompare_nan_r in H; discriminate.
Qed.

(** A defined product has a defined first factor. *)
Lemma mul_defined x y : is_nan (x * y)%float = false -> is_nan x = false.
Proof.
  intros H. apply not_true_is_false. intros Hn. apply is_nan_spec in Hn.
  assert (Hp : is_nan (x * y)%float = true).
  { apply is_nan_spec. rewrite mul_spec, Hn. reflexivity. }
  congruence.
Qed.

Ltac split_andb :=
  repeat match goal with
         | H : (_ && _)%bool = true |- _ =>
             apply andb_prop in H; destruct H
         end.

Ltac defined_operands :=
  repeat match goal with
         | H : (_ <? _)%float = true |- _ =>
             apply ltb_defined in H; destruct H
         | H : (_ <=? _)%float = true |- _ =>
             apply leb_defined in H; destruct H
         | H : is_nan (_ * _)%float = false |- _ =>
             apply mul_defined in H
         end.

Lemma body_entry_defined c df i prev r st st' :
  body c df i st = Ok st' -> emitted st st' = true ->
  nth_error df (i - 1) = Some prev -> nth_error df i = Some r ->
  Forall (fun x => is_nan x = false) (entry_inputs c prev r).
Proof.
  intros Hb He Hp Hr. unfold emitted in He.
  destruct c; cbn [body] in Hb;
    unfold ACC_body, AdaniEnterprises_body, AdaniPower_body, AdaniPorts_body,
      ACC_entry, AdaniEnterprises_entry, AdaniPorts_entry, bind, iloc in Hb;
    rewrite Hr, ?Hp in Hb.
  all: destruct (position_open st) eqn:Ho; cbn [negb andb] in Hb;
    rewrite ?Hp in Hb.
  all: repeat (case_match; try discriminate); inv Hb;
    cbn [close_position Scan.signals] in He;
    rewrite ?Nat.ltb_irrefl in He; try discriminate.
  all: unfold all, ACC_entry_conditions, ACC_volatility_ok, ACC_trend_ok,
         ACC_momentum_ok, ACC_volume_ok, ACC_pattern_ok, golden_cross, gtb, geb
         in *;
    cbn [forallb] in *; split_andb; defined_operands.
  all: cbn [entry_inputs]; repeat constructor; assumption.
Qed.

(** An entry needs defined inputs: at a bar where [generate_signals]
    emits a signal, none of the values read by the entry test of the class
    is NaN (close and indicators of the bar for ACC, close and the rolling
    high of the previous bar for the breakouts, both averages of the bar
    and of the previous bar for the cross). *)
Theorem entry_needs_defined_inputs (self : Strategy) (i : nat)
        (prev r : Row) :
  In (Entry i) (scan_transitions self) ->
  nth_error (data self) (i - 1) = Some prev ->
  nth_error (data self) i = Some r ->
  Forall (fun x => is_nan x = false) (entry_inputs (class self) prev r).
Proof.
  intros Hin Hp Hr.
  assert (Hi : (warmup (class self) <= i < length (data self))%nat).
  { pose proof (scan_entries_bounds self) as Hb.
    rewrite Forall_forall in Hb. apply Hb, entries_in, Hin. }
  destruct (scan_before_total self i) as (st & Hrun & Hw); [lia|].
  destruct (body_total (class self) (data self) i st) as [st' Hb];
    [pose proof (warmup_pos (class self)); lia | assumption |].
  destruct (scan_at_bar self i st st' Hi Hrun Hb) as (_ & Htr & _).
  apply Htr in Hin; [|auto].
  assert (He : emitted st st' = true).
  { unfold observe in Hin. apply in_app_or in Hin.
    destruct Hin as [Hin|Hin].
    - destruct (exit_fires _ _ _ _); cbn in Hin; intuition discriminate.
    - destruct (emitted st st'); [reflexivity | destruct Hin]. }
  eapply body_entry_defined; eassumption.
Qed.

Lemma entry_needs_defined_inputs_witness :
  Forall (fun x => is_nan x = false)
         (entry_inputs (class breakout_strategy) (breakout_row 19)
                       (breakout_row 20)).
Proof.
  apply (entry_needs_defined_inputs breakout_strategy 20 (breakout_row 19)
           (breakout_row 20)).
  - vm_compute. auto.
  - reflexivity.
  - reflexivity.
Defined.

Lemma ltb_undefined x y :
  (is_nan x || is_nan y)%bool = true -> (x <? y)%float = false.
Proof.
  intros H. destruct (x <? y)%float eqn:E; [|reflexivity].
  apply ltb_defined in E. destruct E as [Ex Ey].
  rewrite Ex, Ey in H. discriminate.
Qed.

(** In [AdaniPowerStrategy] a bar at which SMA_50 or SMA_200 is NaN
    changes nothing: the loop state after the bar is the state before it,
    so that an open position stays open and no position is opened, and the
    bar carries neither an exit nor an entry. *)
Theorem undefined_average_freezes_cross (self : Strategy) (i : nat) (r : Row)
        (st : locals) :
  class self = AdaniPowerStrategy ->
  (200 <= i)%nat ->
  nth_error (data self) i = Some r ->
  (is_nan (SMA_50 r) || is_nan (SMA_200 r))%bool = true ->
  scan_before self i = Ok st ->
  scan_before self (S i) = Ok st
  /\ ~ In (Exit i) (scan_transitions self)
  /\ ~ In (Entry i) (scan_transitions self).
Proof.
  intros Hc Hi Hr Hnan Hpre.
  assert (Hlen : (i < length (data self))%nat)
    by (apply nth_error_Some; congruence).
  destruct (nth_error (data self) (i - 1)) as [prev|] eqn:Hp;
    [|apply nth_error_None in Hp; lia].
  assert (Hd : death_cross prev r = false).
  { unfold death_cross. rewrite (ltb_undefined _ _ Hnan).
    apply andb_false_r. }
  assert (Hg : golden_cross prev r = false).
  { unfold golden_cross, gtb. rewrite ltb_undefined; [apply andb_false_r|].
    now rewrite orb_comm. }
  assert (Hb : body (class self) (data self) i st = Ok st).
  { rewrite Hc. cbn [body]. unfold AdaniPower_body, iloc, bind.
    rewrite Hr, Hp, Hd, Hg, !andb_false_r. reflexivity. }
  assert (Hin : (warmup (class self) <= i < length (data self))%nat)
    by (rewrite Hc; cbn; lia).
  destruct (scan_at_bar self i st st Hin Hpre Hb) as (Hnext & Htr & _).
  assert (Hobs : observe (class self) (data self) i st st = []).
  { unfold observe, emitted, exit_fires, exit_guard. rewrite Hc.
    unfold iloc, bind. rewrite Hr, Hp, Hd, andb_false_r, Nat.ltb_irrefl.
    reflexivity. }
  split; [assumption|].
  split; intros H; apply Htr in H; auto; rewrite Hobs in H; destruct H.
Qed.

Lemma undefined_average_freezes_cross_witness :
  scan_before gap_sample 202
  = Ok (open_position Scan.init
          (AdaniPower_signal (cross_row sma50_gap sma200_gap 200))
          100%float (bar_time 200))
  /\ ~ In (Exit 201) (scan_transitions gap_sample)
  /\ ~ In (Entry 201) (scan_transitions gap_sample).
Proof.
  apply (undefined_average_freezes_cross gap_sample 201
           (cross_row sma50_gap sma200_gap 201));
    first [reflexivity | lia | vm_compute; reflexivity].
Defined.

(** * The signal markers of the price chart *)

Lemma first_of_head ty s rest :
  first_of ty (s :: rest) 0 <-> type s = ty.
Proof.
  unfold first_of. cbn. split.
  - intros [(s' & [= <-] & H) _]. exact H.
  - intros H. split; [eauto|]. intros j s' Hj. lia.
Qed.

Lemma first_of_tail ty s rest k :
  first_of ty (s :: rest) (S k) <-> type s <> ty /\ first_of ty rest k.
Proof.
  unfold first_of. cbn [nth_error]. split.
  - intros [Hk Hbefore]. split; [apply (Hbefore 0%nat s); [lia | reflexivity]|].
    split; [exact Hk|]. intros j s' Hj Hs'.
    apply (Hbefore (S j) s'); [lia | exact Hs'].
  - intros [Hs [Hk Hbefore]]. split; [exact Hk|].
    intros [|j] s' Hj Hs'; cbn in Hs'.
    + inv Hs'. exact Hs.
    + apply (Hbefore j s'); [lia | exact Hs'].
Qed.

Lemma colors_long :
  ChartManager.getitem ChartManager.colors "long" = Some "#00ff00"%string.
Proof. reflexivity. Qed.

Lemma colors_short :
  ChartManager.getitem ChartManager.colors "short" = Some "#ff0000"%string.
Proof. reflexivity. Qed.

Lemma markers_from_legend sigs : forall st,
  exists ms,
    ChartManager.markers_from st sigs = Some ms
    /\ length ms = length sigs
    /\ forall k m, nth_error ms k = Some m ->
         (ChartManager.showlegend m = true
          <-> (ChartManager.long_signal_plotted st = false
               /\ first_of "LONG" sigs k)
              \/ (ChartManager.short_signal_plotted st = false
                  /\ first_of "SHORT" sigs k)).
Proof.
  induction sigs as [|s sigs IH]; intros st.
  - exists []. split; [reflexivity|]. split; [reflexivity|].
    intros [|k] m H; discriminate.
  - cbn [ChartManager.markers_from]. unfold ChartManager.marker_body.
    rewrite colors_long, colors_short.
    destruct (String.eqb (type s) "LONG") eqn:Hl;
      [apply String.eqb_eq in Hl | apply String.eqb_neq in Hl];
      (destruct (String.eqb (type s) "SHORT") eqn:Hs;
       [apply String.eqb_eq in Hs | apply String.eqb_neq in Hs]);
      try congruence;
      destruct st as [lp sp]; destruct lp, sp;
      cbn [ChartManager.long_signal_plotted
             ChartManager.short_signal_plotted negb andb];
      match goal with
      | |- context [ChartManager.markers_from ?st' sigs] =>
          destruct (IH st') as (ms & -> & Hlen & Hleg)
      end;
      eexists; (split; [reflexivity|]); (split; [cbn; congruence|]);
      intros [|k] mk Hm; cbn in Hm;
      try (inv Hm; cbn [ChartManager.showlegend];
           rewrite !first_of_head; intuition congruence);
      rewrite (Hleg k mk Hm), !first_of_tail;
      cbn [ChartManager.long_signal_plotted
             ChartManager.short_signal_plotted];
      intuition congruence.
Qed.

(** The price chart adds one marker per signal, and the markers shown in
    the legend are exactly the one of the first signal of type LONG and the
    one of the first signal of type SHORT; the loop never fails on a
    missing colour. *)
Theorem legend_shows_first_of_each_type (sigs : list TradeSignal) :
  exists ms,
    ChartManager.signal_markers sigs = Some ms
    /\ length ms = length sigs
    /\ forall k m, nth_error ms k = Some m ->
         (ChartManager.showlegend m = true
          <-> first_of "LONG" sigs k \/ first_of "SHORT" sigs k).
Proof.
  destruct (markers_from_legend sigs
              {| ChartManager.long_signal_plotted := false;
                 ChartManager.short_signal_plotted := false |})
    as (ms & Hms & Hlen & Hleg).
  exists ms. split; [assumption|]. split; [assumption|].
  intros k m Hm. rewrite (Hleg k m Hm). cbn. tauto.
Qed.

Lemma markers_of_long_signals sigs : forall st,
  Forall (fun s => type s = "LONG"%string) sigs ->
  exists ms,
    ChartManager.markers_from st sigs = Some ms
    /\ Forall2 long_marker sigs ms
    /\ map ChartManager.showlegend ms
       = match sigs with
         | [] => []
         | _ :: rest => negb (ChartManager.long_signal_plotted st)
                        :: repeat false (length rest)
         end.
Proof.
  induction sigs as [|s sigs IH]; intros st Hl.
  - exists []. repeat split. constructor.
  - apply Forall_cons_iff in Hl. destruct Hl as [Hs Hl].
    cbn [ChartManager.markers_from]. unfold ChartManager.marker_body.
    rewrite Hs, colors_long. cbn [String.eqb Ascii.eqb Bool.eqb andb].
    destruct st as [lp sp]; destruct lp;
      cbn [ChartManager.long_signal_plotted negb andb];
      match goal with
      | |- context [ChartManager.markers_from ?st' sigs] =>
          destruct (IH st' Hl) as (ms & -> & Hms & Hleg)
      end;
      eexists; (split; [reflexivity|]);
      (split; [constructor; [unfold long_marker; cbn;
                             repeat split | assumption]|]);
      cbn [map ChartManager.showlegend]; rewrite Hleg;
      destruct sigs; reflexivity.
Qed.

(** The markers the price chart draws for the signals of a strategy: one
    per signal, in order, each an up-triangle in the long colour at the
    signal's timestamp and price, and only the first one is shown in the
    legend. *)
Theorem strategy_signals_are_drawn_long (self : Strategy) :
  exists sigs self' ms,
    generate_signals self = Ok (sigs, self')
    /\ ChartManager.signal_markers sigs = Some ms
    /\ Forall2 long_marker sigs ms
    /\ map ChartManager.showlegend ms
       = match sigs with
         | [] => []
         | _ :: rest => true :: repeat false (length rest)
         end.
Proof.
  destruct (scan_timeline self) as (st & Hrun & _ & Hsig).
  assert (Hlong : Forall (fun s => type s = "LONG"%string) (Scan.signals st)).
  { clear -Hsig. induction Hsig as [|s i sigs idxs (r & _ & ->) _ IH];
      constructor; [apply signal_of_long | assumption]. }
  destruct (markers_of_long_signals (Scan.signals st)
              {| ChartManager.long_signal_plotted := false;
                 ChartManager.short_signal_plotted := false |} Hlong)
    as (ms & Hms & Hdraw & Hleg).
  exists (Scan.signals st), (set_signals self (Scan.signals st)), ms.
  rewrite generate_signals_scan, Hrun. auto.
Qed.

(** * Loading and windowing the bar series *)

Section ManagerProperties.

Variable E : Type.
Variable Table : Type.
Variable file_exists : string -> string -> bool.
Variable read_frame : string -> string -> DataManager.outcome E DataManager.Frame.
Variable calculate_technical_indicators :
  DataManager.Frame -> DataManager.outcome E Table.

Local Abbreviation load_files :=
  (DataManager.load_files E file_exists read_frame).
Local Abbreviation init := (DataManager.init E file_exists read_frame).
Local Abbreviation get_stock_data :=
  (DataManager.get_stock_data E Table calculate_technical_indicators).

Lemma lookup_setitem {A : Type} (d : list (string * A)) k v k' :
  DataManager.lookup (DataManager.setitem d k v) k'
  = if String.eqb k k' then Some v else DataManager.lookup d k'.
Proof.
  induction d as [|[k0 w] d IH]; cbn.
  - reflexivity.
  - destruct (String.eqb k0 k) eqn:E0; cbn.
    + apply String.eqb_eq in E0. subst k0.
      destruct (String.eqb k k'); reflexivity.
    + rewrite IH. destruct (String.eqb k0 k') eqn:E1; [|reflexivity].
      apply String.eqb_eq in E1. subst k0.
      destruct (String.eqb k k') eqn:E2; [|reflexivity].
      apply String.eqb_eq in E2. subst k'.
      rewrite String.eqb_refl in E0. discriminate.
Qed.

Lemma lookup_absent {A : Type} (d : list (string * A)) k :
  ~ In k (map fst d) -> DataManager.lookup d k = None.
Proof.
  induction d as [|[k0 w] d IH]; cbn; [reflexivity|]. intros H.
  destruct (String.eqb k0 k) eqn:E0.
  - apply String.eqb_eq in E0. tauto.
  - apply IH. tauto.
Qed.

(** What the dict holds after the loading loop, key by key. *)
Lemma load_files_lookup files : forall self dm,
  NoDup (map fst files) ->
  load_files files self = DataManager.Done dm ->
  DataManager.data_dir dm = DataManager.data_dir self
  /\ forall name,
       DataManager.lookup (DataManager.stock_data dm) name
       = match DataManager.lookup files name with
         | Some file =>
             if file_exists (DataManager.data_dir self) file then
               match read_frame (DataManager.data_dir self) file with
               | DataManager.Done df => Some df
               | DataManager.Fail _ => None
               end
             else DataManager.lookup (DataManager.stock_data self) name
         | None => DataManager.lookup (DataManager.stock_data self) name
         end.
Proof.
  induction files as [|[n f] files IH]; intros self dm Hnd Hload.
  - cbn in Hload. inv Hload. auto.
  - cbn in Hnd. apply NoDup_cons_iff in Hnd. destruct Hnd as [Hn Hnd].
    cbn [DataManager.load_files] in Hload. cbn [DataManager.lookup].
    destruct (file_exists (DataManager.data_dir self) f) eqn:Hex.
    + destruct (read_frame (DataManager.data_dir self) f) as [df|e] eqn:Hrd;
        [|discriminate].
      destruct (IH _ _ Hnd Hload) as [Hdir Hlk]. cbn in Hdir, Hlk.
      split; [assumption|]. intros name. rewrite Hlk, lookup_setitem.
      destruct (String.eqb n name) eqn:En.
      * apply String.eqb_eq in En. subst name.
        rewrite (lookup_absent files n Hn), Hex, Hrd. reflexivity.
      * reflexivity.
    + destruct (IH _ _ Hnd Hload) as [Hdir Hlk].
      split; [assumption|]. intros name. rewrite Hlk.
      destruct (String.eqb n name) eqn:En; [|reflexivity].
      apply String.eqb_eq in En. subst name.
      rewrite (lookup_absent files n Hn), Hex. reflexivity.
Qed.

Lemma load_files_total files : forall self,
  (forall name file, In (name, file) files ->
     file_exists (DataManager.data_dir self) file = true ->
     exists df, read_frame (DataManager.data_dir self) file
                = DataManager.Done df) ->
  exists dm, load_files files self = DataManager.Done dm.
Proof.
  induction files as [|[n f] files IH]; intros self Hread; cbn.
  - eauto.
  - destruct (file_exists (DataManager.data_dir self) f) eqn:Hex.
    + destruct (Hread n f (or_introl eq_refl) Hex) as [df ->].
      apply IH. cbn. intros name file Hin. apply (Hread name). right.
      exact Hin.
    + apply IH. intros name file Hin. apply (Hread name). right. exact Hin.
Qed.

Lemma lookup_in {A : Type} (d : list (string * A)) k v :
  NoDup (map fst d) -> In (k, v) d -> DataManager.lookup d k = Some v.
Proof.
  induction d as [|[k0 w] d IH]; cbn; [tauto|]. intros Hnd [H|H].
  - inv H. now rewrite String.eqb_refl.
  - apply NoDup_cons_iff in Hnd. destruct Hnd as [Hn Hnd].
    destruct (String.eqb k0 k) eqn:E0; [|auto].
    apply String.eqb_eq in E0. subst k0. exfalso. apply Hn.
    apply (in_map fst) in H. exact H.
Qed.

Lemma stock_files_nodup : NoDup (map fst DataManager.stock_files).
Proof.
  cbn. repeat constructor; cbn; intuition discriminate.
Qed.

(** Files that are missing are skipped without an error: when every file
    of the table that exists can be read, the manager is constructed; a
    stock whose file exists is then served from the frame read from it,
    cut to the date window, and a stock whose file is missing, like any
    name outside the table, makes [get_stock_data] raise [ValueError]
    whatever the dates. *)
Theorem manager_serves_the_files_found (dir : string) :
  (forall name file, In (name, file) DataManager.stock_files ->
     file_exists dir file = true ->
     exists df, read_frame dir file = DataManager.Done df) ->
  exists dm,
    init dir = DataManager.Done dm
    /\ (forall name file df start_date end_date,
          In (name, file) DataManager.stock_files ->
          file_exists dir file = true ->
          read_frame dir file = DataManager.Done df ->
          get_stock_data dm name start_date end_date
          = calculate_technical_indicators
              (DataManager.window start_date end_date df))
    /\ (forall name start_date end_date,
          (forall file, In (name, file) DataManager.stock_files ->
                        file_exists dir file = false) ->
          get_stock_data dm name start_date end_date
          = DataManager.Fail
              (DataManager.ValueError
                 ("Stock " ++ name ++ " not found in data"))).
Proof.
  intros Hread. unfold DataManager.init, DataManager.load_all_data.
  destruct (load_files_total DataManager.stock_files
              {| DataManager.data_dir := dir; DataManager.stock_data := [] |}
              Hread) as [dm Hload].
  exists dm. split; [assumption|].
  destruct (load_files_lookup _ _ _ stock_files_nodup Hload) as [_ Hlk].
  cbn [DataManager.data_dir DataManager.stock_data DataManager.lookup] in Hlk.
  split.
  - intros name file df s e Hin Hex Hrd. unfold DataManager.get_stock_data.
    rewrite Hlk, (lookup_in _ _ _ stock_files_nodup Hin), Hex, Hrd.
    reflexivity.
  - intros name s e Hmiss. unfold DataManager.get_stock_data. rewrite Hlk.
    destruct (DataManager.lookup DataManager.stock_files name) as [file|]
      eqn:Hf; [|reflexivity].
    assert (Hin : In (name, file) DataManager.stock_files).
    { clear -Hf. revert Hf. generalize DataManager.stock_files.
      induction l as [|[k0 w] l IH]; cbn; [discriminate|].
      destruct (String.eqb k0 name) eqn:E0.
      - apply String.eqb_eq in E0. intros [= ->]. left. congruence.
      - intros H. right. auto. }
    rewrite (Hmiss file Hin). reflexivity.
Qed.

End ManagerProperties.

Lemma manager_serves_the_files_found_witness :
  exists dm,
    DataManager.init Empty_set acc_only read_two_bars "csv_data"
    = DataManager.Done dm
    /\ (forall name file df start_date end_date,
          In (name, file) DataManager.stock_files ->
          acc_only "csv_data" file = true ->
          read_two_bars "csv_data" file = DataManager.Done df ->
          DataManager.get_stock_data Empty_set DataManager.Frame hand_back
            dm name start_date end_date
          = hand_back (DataManager.window start_date end_date df))
    /\ (forall name start_date end_date,
          (forall file, In (name, file) DataManager.stock_files ->
                        acc_only "csv_data" file = false) ->
          DataManager.get_stock_data Empty_set DataManager.Frame hand_back
            dm name start_date end_date
          = DataManager.Fail
              (DataManager.ValueError
                 ("Stock " ++ name ++ " not found in data"))).
Proof.
  apply (manager_serves_the_files_found Empty_set DataManager.Frame acc_only
           read_two_bars hand_back "csv_data").
  intros name file _ _. exists two_bars. reflexivity.
Defined.

Lemma filter_sorted {A : Type} (f : A -> Z) (p : A -> bool) l :
  StronglySorted Z.lt (map f l) -> StronglySorted Z.lt (map f (filter p l)).
Proof.
  induction l as [|a l IH]; cbn; [auto|]. intros Hs.
  apply StronglySorted_inv in Hs. destruct Hs as [Hs Hall].
  destruct (p a); cbn; [|auto]. constructor; [auto|].
  rewrite Forall_forall in *. intros t Ht. apply Hall.
  apply in_map_iff in Ht. destruct Ht as (b & <- & Hb).
  apply filter_In in Hb. apply in_map. tauto.
Qed.

Lemma filter_idempotent {A : Type} (p : A -> bool) l :
  filter p (filter p l) = filter p l.
Proof.
  induction l as [|a l IH]; cbn; [reflexivity|].
  destruct (p a) eqn:Hp; cbn; rewrite ?Hp, IH; reflexivity.
Qed.

Lemma filter_swap {A : Type} (p q : A -> bool) l :
  filter p (filter q l) = filter q (filter p l).
Proof.
  induction l as [|a l IH]; cbn; [reflexivity|].
  destruct (p a) eqn:Hp, (q a) eqn:Hq; cbn; rewrite ?Hp, ?Hq, IH;
    reflexivity.
Qed.

Lemma window_idempotent s e df :
  DataManager.window s e (DataManager.window s e df)
  = DataManager.window s e df.
Proof.
  unfold DataManager.window, DataManager.from_date, DataManager.to_date.
  destruct s as [s|], e as [e|]; try reflexivity.
  - rewrite (filter_swap (fun r => s <=? DataManager.date r)
                          (fun r => DataManager.date r <=? e)
                          (filter (fun r => s <=? DataManager.date r) df)).
    now rewrite !filter_idempotent.
  - apply filter_idempotent.
  - apply filter_idempotent.
Qed.

(** For a stock the manager holds, [get_stock_data] hands to the indicator
    computation exactly the stored bars that lie within the bounds given
    (both ends included, an absent bound not restricting), in their stored
    order, so that ascending timestamps stay ascending; cutting the result
    to the same bounds again changes nothing. *)
Theorem get_stock_data_cuts_the_window (E Table : Type)
        (calculate_technical_indicators :
           DataManager.Frame -> DataManager.outcome E Table)
        (self : DataManager.manager) (stock_name : string)
        (start_date end_date : option Z) (df : DataManager.Frame) :
  DataManager.lookup (DataManager.stock_data self) stock_name = Some df ->
  DataManager.get_stock_data E Table calculate_technical_indicators self
    stock_name start_date end_date
  = calculate_technical_indicators
      (DataManager.window start_date end_date df)
  /\ (forall r, In r (DataManager.window start_date end_date df)
                <-> In r df /\ in_window start_date end_date r)
  /\ (StronglySorted Z.lt (map DataManager.date df) ->
      StronglySorted Z.lt
        (map DataManager.date (DataManager.window start_date end_date df)))
  /\ DataManager.window start_date end_date
       (DataManager.window start_date end_date df)
     = DataManager.window start_date end_date df.
Proof.
  intros Hlk. unfold DataManager.get_stock_data. rewrite Hlk.
  split; [reflexivity|]. split; [|split; [|apply window_idempotent]].
  - intros r. unfold DataManager.window, DataManager.from_date,
      DataManager.to_date, in_window.
    destruct start_date as [s|], end_date as [e|];
      rewrite ?filter_In, ?Z.leb_le; split.
    all: try (intros [[Hin Hs] He]; split; [assumption|];
              split; intros t [= <-]; assumption).
    all: try (intros [Hin [Hs He]]; repeat split; auto).
    all: try (intros [Hin Hb]; split; [assumption|];
              split; intros t H; inv H; assumption).
    all: try (intros Hin; split; [assumption|];
              split; intros t H; discriminate).
    all: try tauto.
  - unfold DataManager.window, DataManager.from_date, DataManager.to_date.
    intros Hs. destruct start_date, end_date; auto using filter_sorted.
Qed.

Lemma get_stock_data_cuts_the_window_witness :
  DataManager.get_stock_data Empty_set DataManager.Frame hand_back
    two_bar_manager "ACC" (Some (bar_time 1)) None
  = hand_back (DataManager.window (Some (bar_time 1)) None two_bars)
  /\ (forall r, In r (DataManager.window (Some (bar_time 1)) None two_bars)
                <-> In r two_bars /\ in_window (Some (bar_time 1)) None r)
  /\ (StronglySorted Z.lt (map DataManager.date two_bars) ->
      StronglySorted Z.lt
        (map DataManager.date
             (DataManager.window (Some (bar_time 1)) None two_bars)))
  /\ DataManager.window (Some (bar_time 1)) None
       (DataManager.window (Some (bar_time 1)) None two_bars)
     = DataManager.window (Some (bar_time 1)) None two_bars.
Proof.
  apply (get_stock_data_cuts_the_window Empty_set DataManager.Frame hand_back
           two_bar_manager "ACC" (Some (bar_time 1)) None two_bars).
  reflexivity.
Defined.

(** * The performance and drawdown curves *)

Lemma starts_with_map {A B : Type} (f : A -> B) m c l :
  starts_with m c l -> starts_with m (f c) (map f l).
Proof.
  intros H n Hn. rewrite nth_error_map, (H n Hn). reflexivity.
Qed.

Lemma starts_with_tail {A : Type} m (c x : A) l :
  starts_with (S m) c (x :: l) -> x = c /\ starts_with m c l.
Proof.
  intros H. split.
  - specialize (H 0%nat ltac:(lia)). cbn in H. congruence.
  - intros n Hn. apply (H (S n)). lia.
Qed.

Lemma starts_with_map2 {A B C : Type} (f : A -> B -> C) m a b l1 : forall l2,
  starts_with m a l1 -> starts_with m b l2 ->
  starts_with m (f a b) (map2 f l1 l2).
Proof.
  revert m. induction l1 as [|x l1 IH]; intros m l2 H1 H2 n Hn.
  - specialize (H1 n Hn). destruct n; discriminate.
  - destruct l2 as [|y l2]; [specialize (H2 n Hn); destruct n; discriminate|].
    destruct m as [|m]; [lia|].
    apply starts_with_tail in H1, H2. destruct H1 as [-> H1], H2 as [-> H2].
    destruct n as [|n]; cbn; [reflexivity|].
    apply (IH m l2 H1 H2). lia.
Qed.

Lemma starts_with_accumulate_from op c l : forall m,
  op c c = c -> starts_with m c l ->
  starts_with m c (accumulate_from op c l).
Proof.
  induction l as [|x l IH]; intros m Hop H n Hn.
  - specialize (H n Hn). destruct n; discriminate.
  - destruct m as [|m]; [lia|].
    apply starts_with_tail in H. destruct H as [-> H].
    cbn. rewrite Hop. destruct n as [|n]; cbn; [reflexivity|].
    apply (IH m Hop H). lia.
Qed.

Lemma starts_with_accumulate op c l m :
  op c c = c -> starts_with m c l -> starts_with m c (accumulate op l).
Proof.
  intros Hop H n Hn. destruct l as [|x l].
  - specialize (H n Hn). destruct n; discriminate.
  - destruct m as [|m]; [lia|].
    apply starts_with_tail in H. destruct H as [-> H].
    destruct n as [|n]; cbn; [reflexivity|].
    apply (starts_with_accumulate_from op c l m Hop H). lia.
Qed.

Lemma starts_with_na_accumulate op neutral c l m :
  is_nan c = false -> op c c = c -> starts_with m c l ->
  starts_with m c (na_accumulate op neutral l).
Proof.
  intros Hc Hop H. unfold na_accumulate.
  pose proof (starts_with_map is_nan m c l H) as Hmask.
  pose proof (starts_with_map (fun x => if is_nan x then neutral else x)
                m c l H) as Hvals.
  cbn beta in Hvals. rewrite Hc in Hmask, Hvals.
  pose proof (starts_with_map2 (fun (mk : bool) r => if mk then nan else r)
                m false c _ _ Hmask
                (starts_with_accumulate op c _ m Hop Hvals)) as Hres.
  exact Hres.
Qed.

(** While the returns are 0 the cumulative return is 1 and the drawdown
    is 0. *)
Lemma curves_start_flat rets m :
  starts_with m 0%float (values rets) ->
  starts_with m 1%float (values (performance_curve rets))
  /\ starts_with m 0%float (values (drawdown_curve rets)).
Proof.
  intros H.
  assert (Hc : starts_with m 1%float (values (cumulative_returns rets))).
  { cbn [cumulative_returns values]. unfold cumprod.
    apply starts_with_na_accumulate; try reflexivity.
    exact (starts_with_map (fun x => (1 + x)%float) m 0%float _ H). }
  split; [exact Hc|]. cbn [drawdown_curve values].
  assert (Hm : starts_with m 1%float
                 (cummax (values (cumulative_returns rets)))).
  { unfold cummax. apply starts_with_na_accumulate; try reflexivity.
    exact Hc. }
  exact (starts_with_map2 (fun c k => ((c / k - 1) * 100)%float)
           m 1%float 1%float _ _ Hc Hm).
Qed.

Lemma returns_of_scan self st :
  scan self = Ok st ->
  exists rets,
    calculate_returns (set_signals self (Scan.signals st))
    = Ok (rets, set_signals self (Scan.signals st))
    /\ index rets = map date (data self)
    /\ values rets
       = apply_signals (data self) (Scan.signals st)
                       (repeat 0%float (length (data self))).
Proof.
  intros Hrun. destruct (scan_timeline self) as (st' & Hrun' & _ & Hsig).
  rewrite Hrun in Hrun'. inv Hrun'.
  assert (Hlong : Forall (fun s => type s = "LONG"%string) (Scan.signals st')).
  { clear -Hsig. induction Hsig as [|s i sigs idxs (r & _ & ->) _ IH];
      constructor; [apply signal_of_long | assumption]. }
  set (self1 := set_signals self (Scan.signals st')).
  destruct (for_enumerate_long self1 (Scan.signals st') []
              {| Ret.returns := zeros (data self1); Ret.position := 0;
                 Ret.entry_price := 0%float; Ret.entry_index := None |}
              eq_refl Hlong) as (fin & Hfin & Hidx & Hval).
  exists (Ret.returns fin). split; [|split; assumption].
  unfold calculate_returns. change (signals self1) with (Scan.signals st').
  cbn [length] in Hfin. rewrite Hfin. reflexivity.
Qed.

(** On a frame with strictly ascending timestamps the curves drawn from
    the returns of a strategy keep the index of the frame and are flat up
    to the first signal: at every bar stamped no later than every signal
    (all bars, when there is no signal) the cumulative return is 1.0 and
    the drawdown is 0.0. *)
Theorem curves_are_flat_until_first_signal (self : Strategy) :
  ascending (map date (data self)) = true ->
  exists sigs self1 rets,
    generate_signals self = Ok (sigs, self1)
    /\ calculate_returns self1 = Ok (rets, self1)
    /\ index (performance_curve rets) = map date (data self)
    /\ index (drawdown_curve rets) = map date (data self)
    /\ forall n r,
         nth_error (data self) n = Some r ->
         (forall s, In s sigs -> date r <= timestamp s) ->
         nth_error (values (performance_curve rets)) n = Some 1%float
         /\ nth_error (values (drawdown_curve rets)) n = Some 0%float.
Proof.
  intros Hasc. apply ascending_sorted in Hasc.
  destruct (scan_total self) as (st & Hrun & _).
  destruct (returns_of_scan self st Hrun) as (rets & Hret & Hidx & Hval).
  exists (Scan.signals st), (set_signals self (Scan.signals st)), rets.
  split; [rewrite generate_signals_scan, Hrun; reflexivity|].
  split; [exact Hret|]. split; [exact Hidx|]. split; [exact Hidx|].
  intros n r Hr Hfirst.
  assert (Hzero : starts_with (S n) 0%float (values rets)).
  { intros k Hk. rewrite Hval.
    destruct (nth_error (data self) k) as [rk|] eqn:Hrk.
    2:{ apply nth_error_None in Hrk.
        assert (n < length (data self))%nat
          by (apply nth_error_Some; congruence). lia. }
    assert (H0 : nth_error (repeat 0%float (length (data self))) k
                 = Some 0%float).
    { apply nth_error_repeat. apply nth_error_Some. congruence. }
    rewrite (apply_signals_nth _ _ _ _ _ _ Hrk H0).
    rewrite writer_none; [reflexivity|].
    intros j s Hs. unfold covers.
    assert (Hle : date rk <= date r).
    { destruct (Nat.eq_dec k n) as [->|Hne].
      - rewrite Hr in Hrk. inv Hrk. lia.
      - assert (date rk < date r)
          by (eapply (dates_increase _ k n); try eassumption; lia).
        lia. }
    specialize (Hfirst s (nth_error_In _ _ Hs)).
    replace (timestamp s <? date rk) with false
      by (symmetry; apply Z.ltb_ge; lia).
    reflexivity. }
  destruct (curves_start_flat rets (S n) Hzero) as [Hp Hd].
  split; [apply Hp | apply Hd]; lia.
Qed.

Lemma curves_are_flat_until_first_signal_witness :
  exists sigs self1 rets,
    generate_signals breakout_strategy = Ok (sigs, self1)
    /\ calculate_returns self1 = Ok (rets, self1)
    /\ index (performance_curve rets) = map date (data breakout_strategy)
    /\ index (drawdown_curve rets) = map date (data breakout_strategy)
    /\ forall n r,
         nth_error (data breakout_strategy) n = Some r ->
         (forall s, In s sigs -> date r <= timestamp s) ->
         nth_error (values (performance_curve rets)) n = Some 1%float
         /\ nth_error (values (drawdown_curve rets)) n = Some 0%float.
Proof.
  apply (curves_are_flat_until_first_signal breakout_strategy). reflexivity.
Defined.

(** * No look-ahead *)

Lemma body_ext c df ext i st :
  (1 <= i < length df)%nat -> body c (df ++ ext) i st = body c df i st.
Proof.
  intros Hi.
  destruct c; cbn [body];
    unfold ACC_body, AdaniEnterprises_body, AdaniPower_body, AdaniPorts_body,
      AdaniEnterprises_entry, AdaniPorts_entry, iloc;
    rewrite ?nth_error_app1 by lia; reflexivity.
Qed.

Lemma for_each_ext c df ext idxs : forall st,
  Forall (fun i => (1 <= i < length df)%nat) idxs ->
  for_each (body c (df ++ ext)) idxs st = for_each (body c df) idxs st.
Proof.
  induction idxs as [|i idxs IH]; intros st Hb; [reflexivity|].
  apply Forall_cons_iff in Hb. destruct Hb as [Hi Hb].
  cbn. rewrite (body_ext c df ext i st Hi).
  destruct (body c df i st); cbn; [apply IH, Hb | reflexivity].
Qed.

Lemma stamped_from c df lo sigs idxs :
  Forall2 (signal_at c df) sigs idxs ->
  Forall (fun i => (lo <= i)%nat) idxs ->
  Forall (stamped_on df lo) sigs.
Proof.
  intros H. induction H as [|s i sigs idxs (r & Hr & ->) _ IH]; intros Hb;
    constructor.
  - exists i, r. apply Forall_inv in Hb.
    destruct (signal_of_stamp c r). auto.
  - apply IH. eapply Forall_inv_tail; eassumption.
Qed.

Lemma for_each_stamps c df idxs lo st st' :
  StronglySorted lt idxs -> Forall (fun i => (lo <= i)%nat) idxs ->
  for_each (body c df) idxs st = Ok st' ->
  exists new, Scan.signals st' = Scan.signals st ++ new
              /\ Forall (stamped_on df lo) new.
Proof.
  intros Hs Hlo Hrun.
  destruct (for_each_timeline c df idxs lo st st' Hs Hlo Hrun)
    as (Htl & new & Hnew & Hsig).
  exists new. split; [assumption|].
  eapply stamped_from; [eassumption|].
  apply (timeline_entries_sorted _ _ _ Htl).
Qed.

(** The scan of a frame that was extended by later bars: the signals of
    the frame before the extension come first, and every further signal is
    stamped on a bar of the extension. *)
Lemma scan_extension c df ext sg sg' :
  exists st fin more,
    scan {| class := c; data := df; signals := sg |} = Ok st
    /\ scan {| class := c; data := df ++ ext; signals := sg' |} = Ok fin
    /\ Scan.signals fin = Scan.signals st ++ more
    /\ Forall (stamped_on (df ++ ext) (length df)) more.
Proof.
  destruct (scan_total {| class := c; data := df; signals := sg |})
    as (st & Hst & _).
  destruct (scan_total {| class := c; data := df ++ ext; signals := sg' |})
    as (fin & Hfin & _).
  exists st, fin.
  assert (Hmore : exists more,
             Scan.signals fin = Scan.signals st ++ more
             /\ Forall (stamped_on (df ++ ext) (length df)) more).
  { pose proof Hst as Hst0. pose proof Hfin as Hfin0.
    unfold scan in Hst0, Hfin0. cbn [class data] in Hst0, Hfin0.
    rewrite length_app in Hfin0.
    destruct (Nat.le_gt_cases (warmup c) (length df)) as [Hw|Hw].
    - rewrite (range_app _ (length df)) in Hfin0 by lia.
      rewrite for_each_app, for_each_ext, Hst0 in Hfin0
        by (apply range_in_frame; lia).
      cbn [bind] in Hfin0.
      exact (for_each_stamps c (df ++ ext) _ (length df) st fin
               (range_sorted _ _)
               (Forall_impl _ (fun k H => proj1 H) (range_bounds _ _))
               Hfin0).
    - unfold range in Hst0.
      replace (length df - warmup c)%nat with 0%nat in Hst0 by lia.
      cbn in Hst0. inv Hst0.
      apply (for_each_stamps c (df ++ ext)
               (range (warmup c) (length df + length ext)) (length df)
               Scan.init fin (range_sorted _ _)); [|exact Hfin0].
      eapply Forall_impl;
        [|apply (range_bounds (warmup c) (length df + length ext))].
      cbn. intros k Hk. lia. }
  destruct Hmore as (more & Hmore & Hstamp). exists more. auto.
Qed.

(** The scan does not look ahead: when later bars are appended to a frame
    (the rows already there unchanged), the list [generate_signals]
    returned for the frame is a prefix of the list it returns for the
    longer frame, and every further signal is stamped on an appended
    bar. *)
Theorem signals_are_stable_under_extension (c : StrategyClass)
        (df ext : DataFrame) (sg sg' : list TradeSignal) :
  exists sigs more self1 self2,
    generate_signals {| class := c; data := df; signals := sg |}
    = Ok (sigs, self1)
    /\ generate_signals {| class := c; data := df ++ ext; signals := sg' |}
       = Ok (sigs ++ more, self2)
    /\ Forall (stamped_on (df ++ ext) (length df)) more.
Proof.
  destruct (scan_extension c df ext sg sg')
    as (st & fin & more & Hst & Hfin & Hmore & Hstamp).
  exists (Scan.signals st), more. do 2 eexists.
  rewrite !generate_signals_scan, Hst, Hfin. cbn [bind]. unfold finish.
  rewrite Hmore. auto.
Qed.

Lemma writer_later sigs more t :
  (forall s, In s more -> t <= timestamp s) ->
  writer (sigs ++ more) t = writer sigs t.
Proof.
  intros Hlater. induction sigs as [|s sigs IH].
  - cbn. apply writer_none. intros k s Hs. unfold covers.
    specialize (Hlater s (nth_error_In _ _ Hs)).
    replace (timestamp s <? t) with false by (symmetry; apply Z.ltb_ge; lia).
    reflexivity.
  - cbn [app writer]. rewrite IH. destruct (writer sigs t); [reflexivity|].
    destruct sigs as [|s' sigs]; [|reflexivity].
    cbn [app hd_error]. destruct more as [|m more]; [reflexivity|].
    cbn [hd_error]. unfold covers.
    specialize (Hlater m (or_introl eq_refl)).
    replace (t <=? timestamp m) with true by (symmetry; apply Z.leb_le; lia).
    reflexivity.
Qed.

(** The return series is not repainted: on a frame with strictly ascending
    timestamps that was extended by later bars, the returns of the bars
    that were there before the extension are what they were before it. *)
Theorem returns_are_stable_under_extension (c : StrategyClass)
        (df ext : DataFrame) (sg sg' : list TradeSignal) :
  ascending (map date (df ++ ext)) = true ->
  exists sigs more self1 self2 rets rets',
    generate_signals {| class := c; data := df; signals := sg |}
    = Ok (sigs, self1)
    /\ calculate_returns self1 = Ok (rets, self1)
    /\ generate_signals {| class := c; data := df ++ ext; signals := sg' |}
       = Ok (sigs ++ more, self2)
    /\ calculate_returns self2 = Ok (rets', self2)
    /\ forall n, (n < length df)%nat ->
         nth_error (values rets') n = nth_error (values rets) n.
Proof.
  intros Hasc. apply ascending_sorted in Hasc.
  destruct (scan_extension c df ext sg sg')
    as (st & fin & more & Hst & Hfin & Hmore & Hstamp).
  destruct (returns_of_scan _ st Hst) as (rets & Hret & _ & Hval).
  destruct (returns_of_scan _ fin Hfin) as (rets' & Hret' & _ & Hval').
  cbn [data] in Hval, Hval'.
  exists (Scan.signals st), more. do 2 eexists. exists rets, rets'.
  split; [rewrite generate_signals_scan, Hst; reflexivity|].
  split; [exact Hret|].
  split; [rewrite generate_signals_scan, Hfin; cbn [bind]; unfold finish;
          rewrite Hmore; reflexivity|].
  split; [rewrite <- Hmore; exact Hret'|].
  intros n Hn.
  destruct (nth_error df n) as [r|] eqn:Hr;
    [|apply nth_error_None in Hr; lia].
  assert (Hr' : nth_error (df ++ ext) n = Some r)
    by (rewrite nth_error_app1 by lia; exact Hr).
  rewrite Hval, Hval', Hmore.
  erewrite (apply_signals_nth (df ++ ext)); [|exact Hr'|].
  2:{ apply nth_error_repeat. rewrite length_app. lia. }
  erewrite (apply_signals_nth df); [|exact Hr|].
  2:{ apply nth_error_repeat. exact Hn. }
  rewrite writer_later; [reflexivity|].
  intros s Hs. rewrite Forall_forall in Hstamp.
  destruct (Hstamp s Hs) as (i & ri & Hi & Hri & -> & _).
  assert (date r < date ri)
    by (eapply (dates_increase (df ++ ext) n i); try eassumption; lia).
  lia.
Qed.

Lemma returns_are_stable_under_extension_witness :
  exists sigs more self1 self2 rets rets',
    generate_signals {| class := AdaniEnterprisesStrategy;
                        data := map breakout_row (seq 0 22);
                        signals := [] |}
    = Ok (sigs, self1)
    /\ calculate_returns self1 = Ok (rets, self1)
    /\ generate_signals {| class := AdaniEnterprisesStrategy;
                           data := map breakout_row (seq 0 22)
                                   ++ map breakout_row (seq 22 3);
                           signals := [] |}
       = Ok (sigs ++ more, self2)
    /\ calculate_returns self2 = Ok (rets', self2)
    /\ forall n, (n < length (map breakout_row (seq 0 22)))%nat ->
         nth_error (values rets') n = nth_error (values rets) n.
Proof.
  apply (returns_are_stable_under_extension AdaniEnterprisesStrategy
           (map breakout_row (seq 0 22)) (map breakout_row (seq 22 3))
           [] []).
  reflexivity.
Defined.

(** * Price exits *)

Lemma scan_before_mirrors self i st :
  scan_before self i = Ok st -> mirrors_last_signal st.
Proof.
  intros Hrun. unfold scan_before in Hrun.
  eapply (for_each_invariant _ mirrors_last_signal); [|exact Hrun|].
  - intros k st1 st2 Hb. apply step_mirrors with (c := class self)
      (df := data self) (i := k). apply body_step. exact Hb.
  - unfold mirrors_last_signal. cbn. auto.
Qed.

Lemma scan_before_well_formed self i st :
  scan_before self i = Ok st -> well_formed st.
Proof.
  intros Hrun. unfold scan_before in Hrun.
  eapply (for_each_invariant _ well_formed); [|exact Hrun|].
  - intros k st1 st2 Hb. eapply step_well_formed. apply body_step. exact Hb.
  - apply well_formed_init.
Qed.

Lemma body_price_exit c df i r st :
  nth_error df i = Some r -> position_open st = true -> well_formed st ->
  price_exit c (entry_price st) (close r) = true ->
  body c df i st = Ok (close_position st)
  /\ exit_fires c df i st = true.
Proof.
  intros Hr Ho Hw Hp. specialize (Hw Ho).
  destruct (entry_date st) as [d|] eqn:Hd; [|congruence].
  destruct c; cbn [price_exit] in Hp; try discriminate;
    unfold exit_fires, exit_guard; cbn [body];
    unfold ACC_body, AdaniEnterprises_body, AdaniPorts_body,
      ACC_exit_conditions, AdaniEnterprises_exit_conditions,
      AdaniPorts_exit_conditions, held_days, iloc, bind;
    rewrite Hr, Ho, Hd; unfold any; cbn [existsb andb].
  - apply orb_prop in Hp. destruct Hp as [-> | ->];
      rewrite ?orb_true_r; auto.
  - rewrite Hp, ?orb_true_r. auto.
  - rewrite Hp, ?orb_true_r. auto.
Qed.

(** The price exits are measured against the price of the signal emitted
    last: when the scan reaches bar [i] with a position open whose signal
    is [s], and the close of bar [i] meets a price condition of the class
    for the price of [s] (at or below 0.98 or at or above 1.04 times the
    price for ACC, at or below 0.97 times for Adani Enterprises, 0.95
    times for Adani Ports), the position is closed at bar [i], with an
    exit and no entry recorded there. *)
Theorem price_exit_closes_position (self : Strategy) (i : nat) (r : Row)
        (st : locals) (before : list TradeSignal) (s : TradeSignal) :
  (warmup (class self) <= i)%nat ->
  nth_error (data self) i = Some r ->
  scan_before self i = Ok st ->
  position_open st = true ->
  Scan.signals st = before ++ [s] ->
  price_exit (class self) (price s) (close r) = true ->
  scan_before self (S i) = Ok (close_position st)
  /\ In (Exit i) (scan_transitions self)
  /\ ~ In (Entry i) (scan_transitions self).
Proof.
  intros Hi Hr Hpre Ho Hs Hp.
  pose proof (scan_before_mirrors self i st Hpre) as Hm.
  unfold mirrors_last_signal in Hm. rewrite Ho in Hm.
  destruct Hm as (b' & s' & Hs' & Hprice & _).
  rewrite Hs in Hs'. apply app_inj_tail in Hs'. destruct Hs' as [_ <-].
  rewrite <- Hprice in Hp.
  destruct (body_price_exit (class self) (data self) i r st Hr Ho
              (scan_before_well_formed self i st Hpre) Hp) as [Hb Hfire].
  assert (Hin : (warmup (class self) <= i < length (data self))%nat).
  { split; [assumption|]. apply nth_error_Some. congruence. }
  destruct (scan_at_bar self i st _ Hin Hpre Hb) as (Hnext & Htr & _).
  assert (Hobs : observe (class self) (data self) i st (close_position st)
                 = [Exit i]).
  { unfold observe, emitted. rewrite Hfire.
    cbn [close_position Scan.signals]. rewrite Nat.ltb_irrefl. reflexivity. }
  split; [assumption|]. split.
  - apply Htr; [auto|]. rewrite Hobs. left. reflexivity.
  - intros H. apply Htr in H; [|auto]. rewrite Hobs in H.
    destruct H as [H|[]]. discriminate.
Qed.

Lemma price_exit_closes_position_witness :
  scan_before breakout_strategy 23
  = Ok (close_position (breakout_state (11 * 0.97) (11 * 1.12)))
  /\ In (Exit 22) (scan_transitions breakout_strategy)
  /\ ~ In (Entry 22) (scan_transitions breakout_strategy).
Proof.
  apply (price_exit_closes_position breakout_strategy 22 (breakout_row 22)
           (breakout_state (11 * 0.97) (11 * 1.12)) []
           {| timestamp := bar_time 20; type := "LONG"; price := 11%float;
              stop_loss := (11 * 0.97)%float;
              take_profit := (11 * 1.12)%float;
              reason := "20-day high breakout" |});
    first [reflexivity | cbn; lia].
Defined.
